(** * Collaborative drawing canvas: the server's room state, room manager
      and socket handlers

    A shallow embedding of [src/server/drawing-state.js] (class
    [DrawingState]), [src/server/rooms.js] (class [RoomManager]) and of the
    socket handlers of the server entry file, followed by the properties of
    the operation log, the membership registry and the session handlers.

    Conventions of the embedding.
    - A JavaScript [Map] is an insertion-ordered association list
      ([JsMap]): [Array.from(m.values())] lists the values in insertion
      order, which [getUsers] exposes to clients.
    - A method that mutates [this] takes the object and returns the new
      object next to the method's return value.  A room held by the room
      manager is mutated through the reference the manager holds; here the
      mutated room is stored back under its (existing) key, which leaves the
      iteration order of the [Map] as it was.
    - [Date.now()] and [Math.random()] are inputs of the function that
      calls them.
    - JavaScript numbers that count ([currentOperationId], [colorIndex]) are
      natural numbers: [n++] is exact below 2^53, a bound no run of the
      server reaches.
    - [console.log] is not modelled. *)

From Stdlib Require Import ZArith Lia.
From stdpp Require Import base decidable option list sorting strings gmap.

Local Open Scope string_scope.
Local Open Scope list_scope.
Local Open Scope nat_scope.
Set Warnings "-register-all".

(** ** JavaScript values carried as opaque payloads *)

Inductive JsVal : Type :=
  | JUndefined
  | JNull
  | JBool (b : bool)
  | JNum (z : Z)
  | JStr (s : string)
  | JArr (items : list JsVal)
  | JObj (fields : list (string * JsVal)).

(** [v.k] for an object [v]; [undefined] when the property is missing. *)
Fixpoint js_field_list (k : string) (fields : list (string * JsVal)) : JsVal :=
  match fields with
  | [] => JUndefined
  | (k', v) :: rest => if decide (k' = k) then v else js_field_list k rest
  end.

Definition js_field (k : string) (v : JsVal) : JsVal :=
  match v with
  | JObj fields => js_field_list k fields
  | _ => JUndefined
  end.

(** ** [Map]: insertion-ordered association list with string keys *)

Module JsMap.

Definition t (V : Type) : Type := list (string * V).

Section Ops.
Context {V : Type}.

Definition empty : t V := [].

(** [m.get(k)] *)
Fixpoint get (k : string) (m : t V) : option V :=
  match m with
  | [] => None
  | (k', v) :: m' => if decide (k' = k) then Some v else get k m'
  end.

(** [m.has(k)] *)
Definition has (k : string) (m : t V) : bool :=
  match get k m with Some _ => true | None => false end.

(** [m.set(k, v)]: an existing key keeps its place, a new key goes last. *)
Fixpoint set (k : string) (v : V) (m : t V) : t V :=
  match m with
  | [] => [(k, v)]
  | (k', v') :: m' =>
      if decide (k' = k) then (k, v) :: m' else (k', v') :: set k v m'
  end.

(** [m.delete(k)] *)
Fixpoint delete (k : string) (m : t V) : t V :=
  match m with
  | [] => []
  | (k', v') :: m' =>
      if decide (k' = k) then delete k m' else (k', v') :: delete k m'
  end.

(** [m.size] *)
Definition size (m : t V) : nat := length m.

(** [Array.from(m.values())] *)
Definition values (m : t V) : list V := map snd m.

(** [Array.from(m.entries())] *)
Definition entries (m : t V) : list (string * V) := m.

End Ops.

Arguments empty {V}, V.

End JsMap.

(** ** [src/server/drawing-state.js] *)

(** The object the [draw] handler hands to [addOperation]:
    [{ type, data, userId, username }]; [username] is [userInfo?.username]. *)
Record PartialOp : Type := mkPartialOp {
  p_type : string;
  p_data : JsVal;
  p_userId : string;
  p_username : option string
}.

(** [{ ...operation, id, timestamp }] *)
Record Operation : Type := mkOperation {
  op_type : string;
  op_data : JsVal;
  op_userId : string;
  op_username : option string;
  op_id : nat;
  op_timestamp : Z
}.

(** The handler's [userInfo]: [{ userId, username, color }]. *)
Record UserInfo : Type := mkUserInfo {
  ui_userId : string;
  ui_username : string;
  ui_color : string
}.

(** The record [addUser] stores: [{ ...userInfo, userId, joinedAt }]. *)
Record User : Type := mkUser {
  u_userId : string;
  u_username : string;
  u_color : string;
  u_joinedAt : Z
}.

Module DrawingState.

Record t : Type := mk {
  roomId : string;
  operations : list Operation;
  currentOperationId : nat;
  users : JsMap.t User
}.

(** [constructor(roomId)] *)
Definition new (rid : string) : t :=
  {| roomId := rid; operations := []; currentOperationId := 0;
     users := JsMap.empty |}.

(** [addOperation(operation)], with [now] the value of [Date.now()]. *)
Definition addOperation (s : t) (operation : PartialOp) (now : Z)
  : t * Operation :=
  let op :=
    {| op_type := p_type operation;
       op_data := p_data operation;
       op_userId := p_userId operation;
       op_username := p_username operation;
       op_id := currentOperationId s;
       op_timestamp := now |} in
  ({| roomId := roomId s;
      operations := operations s ++ [op];
      currentOperationId := S (currentOperationId s);
      users := users s |}, op).

(** [getAllOperations()] *)
Definition getAllOperations (s : t) : list Operation := operations s.

(** [Array.prototype.pop] on a non-empty array. *)
Definition array_pop {A : Type} (l : list A) : list A * option A :=
  match last l with
  | None => (l, None)
  | Some x => (take (length l - 1) l, Some x)
  end.

(** [undo()]: [null] is [None]. *)
Definition undo (s : t) : t * option Operation :=
  if decide (length (operations s) = 0) then (s, None)
  else
    let '(rest, popped) := array_pop (operations s) in
    ({| roomId := roomId s;
        operations := rest;
        currentOperationId := currentOperationId s;
        users := users s |}, popped).

(** The object [getState()] returns. *)
Record StateSummary : Type := mkSummary {
  sum_roomId : string;
  sum_operationCount : nat;
  sum_userCount : nat;
  sum_users : list User
}.

Definition getState (s : t) : StateSummary :=
  {| sum_roomId := roomId s;
     sum_operationCount := length (operations s);
     sum_userCount := JsMap.size (users s);
     sum_users := JsMap.values (users s) |}.

(** [addUser(userId, userInfo)], with [now] the value of [Date.now()]. *)
Definition addUser (s : t) (uid : string) (info : UserInfo) (now : Z) : t :=
  {| roomId := roomId s;
     operations := operations s;
     currentOperationId := currentOperationId s;
     users :=
       JsMap.set uid
         {| u_userId := uid; u_username := ui_username info;
            u_color := ui_color info; u_joinedAt := now |}
         (users s) |}.

(** [removeUser(userId)] *)
Definition removeUser (s : t) (uid : string) : t :=
  {| roomId := roomId s;
     operations := operations s;
     currentOperationId := currentOperationId s;
     users := JsMap.delete uid (users s) |}.

(** [getUser(userId)] *)
Definition getUser (s : t) (uid : string) : option User :=
  JsMap.get uid (users s).

(** [getUsers()] *)
Definition getUsers (s : t) : list User := JsMap.values (users s).

(** [clear()] *)
Definition clear (s : t) : t :=
  {| roomId := roomId s;
     operations := [];
     currentOperationId := 0;
     users := users s |}.

(** *** Sequences of method calls on one room *)

Inductive Call : Type :=
  | CallAddOperation (operation : PartialOp) (now : Z)
  | CallUndo
  | CallClear
  | CallAddUser (uid : string) (info : UserInfo) (now : Z)
  | CallRemoveUser (uid : string).

(** One call: the new state and the operation the call returned, if the
    call returns one. *)
Definition call (s : t) (c : Call) : t * option Operation :=
  match c with
  | CallAddOperation p now =>
      let '(s', op) := addOperation s p now in (s', Some op)
  | CallUndo => undo s
  | CallClear => (clear s, None)
  | CallAddUser uid info now => (addUser s uid info now, None)
  | CallRemoveUser uid => (removeUser s uid, None)
  end.

(** The state after a sequence of calls. *)
Definition run (s : t) (cs : list Call) : t :=
  foldl (λ s c, (call s c).1) s cs.

(** The operations the [addOperation] calls of a sequence return, in call
    order. *)
Fixpoint assigned (s : t) (cs : list Call) : list Operation :=
  match cs with
  | [] => []
  | c :: cs' =>
      match c with
      | CallAddOperation p now =>
          let '(s', op) := addOperation s p now in op :: assigned s' cs'
      | _ => assigned (call s c).1 cs'
      end
  end.

(** [n] consecutive [addOperation] calls: final state and returned
    operations in call order. *)
Fixpoint addOperations (s : t) (ps : list (PartialOp * Z))
  : t * list Operation :=
  match ps with
  | [] => (s, [])
  | (p, now) :: ps' =>
      let '(s1, op) := addOperation s p now in
      let '(s2, ops) := addOperations s1 ps' in
      (s2, op :: ops)
  end.

Definition log_ids (s : t) : list nat := op_id <$> operations s.

Definition is_undo (c : Call) : bool :=
  match c with CallUndo => true | _ => false end.

Definition is_clear (c : Call) : bool :=
  match c with CallClear => true | _ => false end.

End DrawingState.


(** ** [src/server/rooms.js] *)

Module RoomManager.

Record t : Type := mk {
  rooms : JsMap.t DrawingState.t
}.

(** [constructor()] *)
Definition new : t := {| rooms := JsMap.empty |}.

(** [getOrCreateRoom(roomId)]: [rooms.has] and [rooms.get] on one key agree,
    so the test and the final lookup are one [match]. *)
Definition getOrCreateRoom (m : t) (rid : string) : t * DrawingState.t :=
  match JsMap.get rid (rooms m) with
  | Some room => (m, room)
  | None =>
      let room := DrawingState.new rid in
      ({| rooms := JsMap.set rid room (rooms m) |}, room)
  end.

(** [getRoom(roomId)]: [undefined] is [None]. *)
Definition getRoom (m : t) (rid : string) : option DrawingState.t :=
  JsMap.get rid (rooms m).

(** [removeRoom(roomId)]: the new store and the returned boolean. *)
Definition removeRoom (m : t) (rid : string) : t * bool :=
  match JsMap.get rid (rooms m) with
  | Some room =>
      if decide (JsMap.size (DrawingState.users room) = 0)
      then ({| rooms := JsMap.delete rid (rooms m) |}, true)
      else (m, false)
  | None => (m, false)
  end.

(** [getAllRooms()]: in [{ roomId, ...state.getState() }] the [roomId] of
    the state's summary is the later property and wins. *)
Definition getAllRooms (m : t) : list DrawingState.StateSummary :=
  (λ '(_, state), DrawingState.getState state) <$> JsMap.entries (rooms m).

(** [cleanupEmptyRooms()]: the new store and the number of rooms removed. *)
Definition cleanupEmptyRooms (m : t) : t * nat :=
  let emptyRooms :=
    fst <$> filter
      (λ e : string * DrawingState.t,
         JsMap.size (DrawingState.users e.2) = 0)
      (JsMap.entries (rooms m)) in
  ({| rooms := foldl (λ r rid, JsMap.delete rid r) (rooms m) emptyRooms |},
   length emptyRooms).

(** A room object mutated through the reference the store holds: the store
    shows the new contents under the same key, at the same place. *)
Definition mutated (m : t) (rid : string) (room : DrawingState.t) : t :=
  {| rooms := JsMap.set rid room (rooms m) |}.

End RoomManager.

(** ** The server entry file: socket handlers *)

(** [USER_COLORS] *)
Definition USER_COLORS : list string :=
  [ "#FF6B6B"; "#4ECDC4"; "#45B7D1"; "#FFA07A";
    "#98D8C8"; "#F7DC6F"; "#BB8FCE"; "#85C1E2";
    "#F8B739"; "#52B788"; "#E63946"; "#A8DADC" ].

(** The module-level state: [roomManager] and [colorIndex]. *)
Record Server : Type := mkServer {
  roomManager : RoomManager.t;
  colorIndex : nat
}.

Definition initial_server : Server :=
  {| roomManager := RoomManager.new; colorIndex := 0 |}.

(** The variables one connection's handlers close over: [socket.id],
    [currentRoom] and [userInfo] ([null] is [None]). *)
Record Conn : Type := mkConn {
  socket_id : string;
  currentRoom : option string;
  userInfo : option UserInfo
}.

(** The closure of a new connection. *)
Definition new_conn (sid : string) : Conn :=
  {| socket_id := sid; currentRoom := None; userInfo := None |}.

(** The payload of [join-room]: [{ roomId, username }], either of which may
    be missing or [null]. *)
Record JoinData : Type := mkJoinData {
  jd_roomId : option string;
  jd_username : option string
}.

(** Truthiness of a string-or-null: [null], [undefined] and the empty string
    are falsy. *)
Definition truthy (o : option string) : option string :=
  match o with
  | Some s => if decide (s = "") then None else Some s
  | None => None
  end.

(** [o || d] *)
Definition js_or (o : option string) (d : string) : string :=
  match truthy o with Some s => s | None => d end.

(** Where an [emit] goes: [socket.emit], [socket.to(room).emit] (the room
    without the sender) and [io.to(room).emit] (the whole room). *)
Inductive Target : Type :=
  | ToSelf (sid : string)
  | ToOthers (room : string) (sender : string)
  | ToAll (room : string).

(** The events the server emits, with their payloads. *)
Inductive Msg : Type :=
  | InitState (uid : string) (info : UserInfo)
      (ops : list Operation) (us : list User)
  | UserLeft (uid : string)
  | UserJoined (info : UserInfo)
  | UsersUpdate (us : list User)
  | DrawMsg (op : Operation)
  | CursorMove (uid : string) (username color : option string) (x y : JsVal)
  | UndoMsg (operationId : nat)
  | ClearCanvas.

(** What a handler does besides changing the server's state, in program
    order: [socket.leave], [socket.join], an [emit], and the [setTimeout]
    that defers [roomManager.removeRoom(room)]. *)
Inductive Effect : Type :=
  | SockLeave (sid room : string)
  | SockJoin (sid room : string)
  | Emit (to : Target) (msg : Msg)
  | SetTimeoutRemoveRoom (ms : nat) (room : string).

(** *** [join-room] *)

(** "Leave previous room if any". *)
Definition join_leave (srv : Server) (c : Conn) : Server * list Effect :=
  match truthy (currentRoom c) with
  | Some cur =>
      match RoomManager.getRoom (roomManager srv) cur with
      | Some oldRoom =>
          ({| roomManager :=
                RoomManager.mutated (roomManager srv) cur
                  (DrawingState.removeUser oldRoom (socket_id c));
              colorIndex := colorIndex srv |},
           [SockLeave (socket_id c) cur;
            Emit (ToOthers cur (socket_id c)) (UserLeft (socket_id c))])
      | None => (srv, [SockLeave (socket_id c) cur])
      end
  | None => (srv, [])
  end.

(** [roomManager.getOrCreateRoom(roomId)] *)
Definition join_create (srv : Server) (rid : string)
  : Server * DrawingState.t :=
  let '(rm, room) := RoomManager.getOrCreateRoom (roomManager srv) rid in
  ({| roomManager := rm; colorIndex := colorIndex srv |}, room).

(** [USER_COLORS[colorIndex % USER_COLORS.length]]; the index is in range,
    so the default of [nth] is never returned. *)
Definition next_color (srv : Server) : string :=
  nth (colorIndex srv mod length USER_COLORS) USER_COLORS "".

(** "Assign user color", build [userInfo], [room.addUser]. *)
Definition join_add (srv : Server) (room : DrawingState.t) (sid rid : string)
    (username : string) (now : Z) : Server * UserInfo * DrawingState.t :=
  let info :=
    {| ui_userId := sid; ui_username := username;
       ui_color := next_color srv |} in
  let room' := DrawingState.addUser room sid info now in
  ({| roomManager := RoomManager.mutated (roomManager srv) rid room';
      colorIndex := S (colorIndex srv) |}, info, room').

(** The room a [join-room] message asks for. *)
Definition join_target (data : JoinData) : string :=
  js_or (jd_roomId data) "default".

(** The handler: [gen] is what [generateUsername()] would return, [now] is
    [Date.now()]. *)
Definition on_join (srv : Server) (c : Conn) (data : JoinData)
    (gen : string) (now : Z) : Server * Conn * list Effect :=
  let rid := join_target data in
  let username := js_or (jd_username data) gen in
  let sid := socket_id c in
  let '(srv1, leaving) := join_leave srv c in
  let '(srv2, room) := join_create srv1 rid in
  let '(srv3, info, room') := join_add srv2 room sid rid username now in
  (srv3,
   {| socket_id := sid; currentRoom := Some rid; userInfo := Some info |},
   (leaving ++
   [SockJoin sid rid;
    Emit (ToSelf sid)
      (InitState sid info (DrawingState.getAllOperations room')
         (DrawingState.getUsers room'));
    Emit (ToOthers rid sid) (UserJoined info);
    Emit (ToAll rid) (UsersUpdate (DrawingState.getUsers room'))])%list).

(** The server states the handler goes through: on entry, after the leave,
    after the room lookup, after [addUser]. *)
Definition join_states (srv : Server) (c : Conn) (data : JoinData)
    (gen : string) (now : Z) : list Server :=
  let rid := join_target data in
  let username := js_or (jd_username data) gen in
  let srv1 := (join_leave srv c).1 in
  let '(srv2, room) := join_create srv1 rid in
  let srv3 := (join_add srv2 room (socket_id c) rid username now).1.1 in
  [srv; srv1; srv2; srv3].

(** *** [draw] *)
Definition on_draw (srv : Server) (c : Conn) (data : JsVal) (now : Z)
  : Server * Conn * list Effect :=
  match truthy (currentRoom c) with
  | None => (srv, c, [])
  | Some cur =>
      match RoomManager.getRoom (roomManager srv) cur with
      | None => (srv, c, [])
      | Some room =>
          let '(room', operation) :=
            DrawingState.addOperation room
              {| p_type := "draw"; p_data := data;
                 p_userId := socket_id c;
                 p_username := ui_username <$> userInfo c |} now in
          ({| roomManager := RoomManager.mutated (roomManager srv) cur room';
              colorIndex := colorIndex srv |}, c,
           [Emit (ToOthers cur (socket_id c)) (DrawMsg operation)])
      end
  end.

(** *** [cursor-move] *)
Definition on_cursor_move (srv : Server) (c : Conn) (data : JsVal)
  : Server * Conn * list Effect :=
  match truthy (currentRoom c) with
  | None => (srv, c, [])
  | Some cur =>
      (srv, c,
       [Emit (ToOthers cur (socket_id c))
          (CursorMove (socket_id c)
             (ui_username <$> userInfo c) (ui_color <$> userInfo c)
             (js_field "x" data) (js_field "y" data))])
  end.

(** *** [undo] *)
Definition on_undo (srv : Server) (c : Conn) : Server * Conn * list Effect :=
  match truthy (currentRoom c) with
  | None => (srv, c, [])
  | Some cur =>
      match RoomManager.getRoom (roomManager srv) cur with
      | None => (srv, c, [])
      | Some room =>
          match DrawingState.undo room with
          | (room', Some undoneOperation) =>
              ({| roomManager :=
                    RoomManager.mutated (roomManager srv) cur room';
                  colorIndex := colorIndex srv |}, c,
               [Emit (ToAll cur) (UndoMsg (op_id undoneOperation))])
          | (_, None) => (srv, c, [])
          end
      end
  end.

(** *** [clear-canvas] *)
Definition on_clear_canvas (srv : Server) (c : Conn)
  : Server * Conn * list Effect :=
  match truthy (currentRoom c) with
  | None => (srv, c, [])
  | Some cur =>
      match RoomManager.getRoom (roomManager srv) cur with
      | None => (srv, c, [])
      | Some room =>
          ({| roomManager :=
                RoomManager.mutated (roomManager srv) cur
                  (DrawingState.clear room);
              colorIndex := colorIndex srv |}, c,
           [Emit (ToAll cur) ClearCanvas])
      end
  end.

(** *** [disconnect] *)
Definition on_disconnect (srv : Server) (c : Conn)
  : Server * Conn * list Effect :=
  match truthy (currentRoom c) with
  | None => (srv, c, [])
  | Some cur =>
      match RoomManager.getRoom (roomManager srv) cur with
      | None => (srv, c, [])
      | Some room =>
          let room' := DrawingState.removeUser room (socket_id c) in
          ({| roomManager := RoomManager.mutated (roomManager srv) cur room';
              colorIndex := colorIndex srv |}, c,
           [Emit (ToOthers cur (socket_id c)) (UserLeft (socket_id c));
            Emit (ToAll cur) (UsersUpdate (DrawingState.getUsers room'));
            SetTimeoutRemoveRoom 5000 cur])
      end
  end.

(** *** Membership *)

(** [sid] is a key of the [users] map of room [rid]. *)
Definition is_member (srv : Server) (rid sid : string) : bool :=
  match RoomManager.getRoom (roomManager srv) rid with
  | Some room => JsMap.has sid (DrawingState.users room)
  | None => false
  end.

(** ** The server as a whole: every live connection's closure *)

(** [io.on('connection', ...)] creates one closure per socket; socket.io
    gives every live socket an id of its own, and delivers a socket's events
    to that socket's handlers only while the socket is connected. *)
Record System : Type := mkSystem {
  sys_server : Server;
  sys_conns : gmap string Conn
}.

Definition initial_system : System :=
  {| sys_server := initial_server; sys_conns := ∅ |}.

(** What the event loop runs: a new connection, a message or the disconnect
    of a socket, a deferred [removeRoom] falling due, the periodic
    [cleanupEmptyRooms]. *)
Inductive Event : Type :=
  | EvConnection (sid : string)
  | EvJoinRoom (sid : string) (data : JoinData) (gen : string) (now : Z)
  | EvDraw (sid : string) (data : JsVal) (now : Z)
  | EvCursorMove (sid : string) (data : JsVal)
  | EvUndo (sid : string)
  | EvClearCanvas (sid : string)
  | EvDisconnect (sid : string)
  | EvRemoveRoomTimer (rid : string)
  | EvCleanupInterval.

(** Run a handler of socket [sid]; nothing runs for a socket that is not
    connected. *)
Definition deliver (σ : System) (sid : string)
    (handler : Server → Conn → Server * Conn * list Effect)
  : System * list Effect :=
  match sys_conns σ !! sid with
  | None => (σ, [])
  | Some c =>
      let '(srv', c', effs) := handler (sys_server σ) c in
      ({| sys_server := srv'; sys_conns := <[sid := c']> (sys_conns σ) |},
       effs)
  end.

Definition sys_step (σ : System) (ev : Event) : System * list Effect :=
  match ev with
  | EvConnection sid =>
      match sys_conns σ !! sid with
      | Some _ => (σ, [])
      | None =>
          ({| sys_server := sys_server σ;
              sys_conns := <[sid := new_conn sid]> (sys_conns σ) |}, [])
      end
  | EvJoinRoom sid data gen now =>
      deliver σ sid (λ srv c, on_join srv c data gen now)
  | EvDraw sid data now => deliver σ sid (λ srv c, on_draw srv c data now)
  | EvCursorMove sid data =>
      deliver σ sid (λ srv c, on_cursor_move srv c data)
  | EvUndo sid => deliver σ sid on_undo
  | EvClearCanvas sid => deliver σ sid on_clear_canvas
  | EvDisconnect sid =>
      match sys_conns σ !! sid with
      | None => (σ, [])
      | Some c =>
          let '(srv', _, effs) := on_disconnect (sys_server σ) c in
          ({| sys_server := srv'; sys_conns := delete sid (sys_conns σ) |},
           effs)
      end
  | EvRemoveRoomTimer rid =>
      ({| sys_server :=
            {| roomManager :=
                 (RoomManager.removeRoom
                    (roomManager (sys_server σ)) rid).1;
               colorIndex := colorIndex (sys_server σ) |};
          sys_conns := sys_conns σ |}, [])
  | EvCleanupInterval =>
      ({| sys_server :=
            {| roomManager :=
                 (RoomManager.cleanupEmptyRooms
                    (roomManager (sys_server σ))).1;
               colorIndex := colorIndex (sys_server σ) |};
          sys_conns := sys_conns σ |}, [])
  end.

(** A run of the event loop: the final state and everything emitted, in
    order. *)
Fixpoint sys_run (σ : System) (evs : list Event) : System * list Effect :=
  match evs with
  | [] => (σ, [])
  | ev :: evs' =>
      let '(σ1, effs1) := sys_step σ ev in
      let '(σ2, effs2) := sys_run σ1 evs' in
      (σ2, (effs1 ++ effs2)%list)
  end.

(** The colors handed out by the joins of a run, read off the [init-state]
    messages (one per processed join), in order. *)
Definition assigned_colors (effs : list Effect) : list string :=
  omap (λ e, match e with
             | Emit (ToSelf _) (InitState _ info _ _) => Some (ui_color info)
             | _ => None
             end) effs.

(** The connection [sid] is bound to room [rid]. *)
Definition bound_to (σ : System) (sid rid : string) : Prop :=
  ∃ c, sys_conns σ !! sid = Some c ∧ currentRoom c = Some rid.


(** ** Vocabulary of the properties *)

(** The ids of a log in log order are strictly ascending. *)
Definition ascending (ids : list nat) : Prop := StronglySorted lt ids.

(** The ids are consecutive integers: no gap between neighbours. *)
Definition consecutive (ids : list nat) : Prop :=
  ∃ a, ids = seq a (length ids).

(** The log invariant: ids strictly ascending in log order and all below
    the id counter. *)
Definition log_inv (s : DrawingState.t) : Prop :=
  ascending (DrawingState.log_ids s) ∧
  Forall (λ i, i < DrawingState.currentOperationId s)
    (DrawingState.log_ids s).

(** No [undo] among the calls. *)
Definition undo_free (cs : list DrawingState.Call) : bool :=
  forallb (λ c, negb (DrawingState.is_undo c)) cs.

(** No [clear] among the calls. *)
Definition clear_free (cs : list DrawingState.Call) : bool :=
  forallb (λ c, negb (DrawingState.is_clear c)) cs.

(** The log is exactly [0, 1, ..., counter - 1]. *)
Definition gap_free_from_zero (s : DrawingState.t) : Prop :=
  DrawingState.log_ids s = seq 0 (DrawingState.currentOperationId s).

(** The id counter is a strict upper bound of the ids in the log. *)
Definition counter_bounds (s : DrawingState.t) : Prop :=
  Forall (λ i, i < DrawingState.currentOperationId s)
    (DrawingState.log_ids s).

(** A stroke as the [draw] handler would submit it, for the examples. *)
Definition sample_op : PartialOp :=
  {| p_type := "draw"; p_data := JObj [("width", JNum 3)];
     p_userId := "sock1"; p_username := Some "SwiftArtist7" |}.

(** The keys of the [rooms] map are distinct, as the keys of a [Map]
    are. *)
Definition keys_ok (srv : Server) : Prop :=
  NoDup (RoomManager.rooms (roomManager srv)).*1.

(** What holds of the connections and the rooms in every state the server
    reaches: a closure is filed under its socket's id, its [currentRoom] is
    never the empty string, and the users map of a room holds exactly the
    live connections bound to that room. *)
Record sys_inv (σ : System) : Prop := mkSysInv {
  inv_keys : keys_ok (sys_server σ);
  inv_conn : ∀ sid c,
    sys_conns σ !! sid = Some c →
    socket_id c = sid ∧ truthy (currentRoom c) = currentRoom c;
  inv_member : ∀ rid sid,
    is_member (sys_server σ) rid sid = true → bound_to σ sid rid;
  inv_bound : ∀ rid sid,
    bound_to σ sid rid → is_member (sys_server σ) rid sid = true
}.

(** A handler that leaves the closure, everybody's membership and the set
    of rooms alone. *)
Definition quiet (h : Server → Conn → Server * Conn * list Effect) : Prop :=
  ∀ srv c, (h srv c).1.2 = c ∧
           (∀ r sid, is_member (h srv c).1.1 r sid = is_member srv r sid) ∧
           (h srv c).1.1.(roomManager).(RoomManager.rooms).*1
             = srv.(roomManager).(RoomManager.rooms).*1.

(** The palette entries for the joins numbered [start], ..., [start+n-1]. *)
Definition palette_from (start n : nat) : list string :=
  (λ k, nth (k mod 12) USER_COLORS "") <$> seq start n.

(** ** Vocabulary of the further properties *)

(** [n] consecutive [undo] calls: the final state and the operations the
    calls returned ([null]s left out), in call order. *)
Fixpoint undo_times (s : DrawingState.t) (n : nat)
  : DrawingState.t * list Operation :=
  match n with
  | 0 => (s, [])
  | S n' =>
      let '(s1, r) := DrawingState.undo s in
      let '(s2, rs) := undo_times s1 n' in
      (s2, match r with Some op => op :: rs | None => rs end)
  end.

(** An operation as the [draw] handler logs it: of type "draw" and with the
    name of the user that drew it. *)
Definition logged_by_draw (op : Operation) : Prop :=
  op_type op = "draw" ∧ is_Some (op_username op).

(** What holds of a room the store keeps under the key [rid]: its [roomId]
    is the key, its log satisfies the log invariant and holds operations
    logged by [draw] only, and its users map has distinct keys and files
    every user record under the record's [userId]. *)
Record room_ok (rid : string) (room : DrawingState.t) : Prop := mkRoomOk {
  ok_roomId : DrawingState.roomId room = rid;
  ok_log : log_inv room;
  ok_ops : Forall logged_by_draw (DrawingState.operations room);
  ok_user_keys : NoDup (DrawingState.users room).*1;
  ok_users : ∀ uid u,
    JsMap.get uid (DrawingState.users room) = Some u → u_userId u = uid
}.

Definition rooms_ok (srv : Server) : Prop :=
  ∀ rid room,
    RoomManager.getRoom (roomManager srv) rid = Some room → room_ok rid room.

(** A closure has a [userInfo] exactly when it has a [currentRoom], and the
    [userInfo] carries the socket's id. *)
Definition conn_ok (sid : string) (c : Conn) : Prop :=
  match currentRoom c with
  | Some _ => ∃ info, userInfo c = Some info ∧ ui_userId info = sid
  | None => userInfo c = None
  end.

(** More of what holds in every state the server reaches. *)
Record sys_inv_ext (σ : System) : Prop := mkSysInvExt {
  ext_rooms : rooms_ok (sys_server σ);
  ext_conns : ∀ sid c, sys_conns σ !! sid = Some c → conn_ok sid c
}.

(** ** The client: [src/client/websocket.js], [src/client/canvas.js] and
       the callbacks of the application file

    The socket's messages and the input events are the inputs; what is
    drawn on the canvas element, the page's elements (status, counters,
    users list, remote cursors) and the latency ping are not modelled. *)

(** What the client sends: [socket.emit(event, payload)]. *)
Inductive ClientEmit : Type :=
  | SendJoinRoom (data : JoinData)
  | SendDraw (data : JsVal)
  | SendUndo
  | SendClearCanvas
  | SendCursorMove (data : JsVal).

Module WebSocketManager.

Record t : Type := mk {
  userId : option string;
  userInfo : option UserInfo;
  connected : bool;
  lastCursorUpdate : Z
}.

(** [this.cursorUpdateInterval], in ms *)
Definition cursorUpdateInterval : Z := 50.

(** [constructor()] *)
Definition new : t :=
  {| userId := None; userInfo := None; connected := false;
     lastCursorUpdate := 0 |}.

(** [joinRoom(roomId, username = null)] *)
Definition joinRoom (w : t) (roomId : string) (username : option string)
  : list ClientEmit :=
  [SendJoinRoom {| jd_roomId := Some roomId; jd_username := username |}].

(** The socket's [connect] handler: sets [connected] and joins the room
    "default". *)
Definition on_connect (w : t) : t * list ClientEmit :=
  let w' := {| userId := userId w; userInfo := userInfo w;
               connected := true;
               lastCursorUpdate := lastCursorUpdate w |} in
  (w', joinRoom w' "default" None).

(** The socket's [disconnect] handler. *)
Definition on_disconnect (w : t) : t :=
  {| userId := userId w; userInfo := userInfo w; connected := false;
     lastCursorUpdate := lastCursorUpdate w |}.

(** The socket's [init-state] handler, before it calls [onInitState]. *)
Definition on_init_state (w : t) (uid : string) (info : UserInfo) : t :=
  {| userId := Some uid; userInfo := Some info; connected := connected w;
     lastCursorUpdate := lastCursorUpdate w |}.

(** [sendDrawing(drawData)] *)
Definition sendDrawing (w : t) (drawData : JsVal) : list ClientEmit :=
  if connected w then [SendDraw drawData] else [].

(** [sendUndo()] *)
Definition sendUndo (w : t) : list ClientEmit :=
  if connected w then [SendUndo] else [].

(** [sendClear()] *)
Definition sendClear (w : t) : list ClientEmit :=
  if connected w then [SendClearCanvas] else [].

(** [sendCursorPosition(x, y)], with [now] the value of [Date.now()]. *)
Definition sendCursorPosition (w : t) (x y : JsVal) (now : Z)
  : t * list ClientEmit :=
  if negb (connected w) then (w, [])
  else if (now - lastCursorUpdate w <? cursorUpdateInterval)%Z then (w, [])
  else ({| userId := userId w; userInfo := userInfo w;
           connected := connected w; lastCursorUpdate := now |},
        [SendCursorMove (JObj [("x", x); ("y", y)])]).

End WebSocketManager.

Module CanvasManager.

Record t : Type := mk {
  isDrawing : bool;
  currentTool : string;
  currentColor : string;
  strokeWidth : Z;
  currentPath : list JsVal;
  lastPoint : option JsVal;
  operations : list Operation
}.

(** [constructor(canvasElement)] *)
Definition new : t :=
  {| isDrawing := false; currentTool := "brush"; currentColor := "#000000";
     strokeWidth := 5; currentPath := []; lastPoint := None;
     operations := [] |}.

(** [handleDrawStart(event)], with [pos] the value of
    [getPosition(event)]. *)
Definition handleDrawStart (cm : t) (pos : JsVal) : t :=
  {| isDrawing := true; currentTool := currentTool cm;
     currentColor := currentColor cm; strokeWidth := strokeWidth cm;
     currentPath := [pos]; lastPoint := Some pos;
     operations := operations cm |}.

(** The part of [handleDrawMove] after the cursor position is sent. *)
Definition extendPath (cm : t) (pos : JsVal) : t :=
  if negb (isDrawing cm) then cm
  else {| isDrawing := isDrawing cm; currentTool := currentTool cm;
          currentColor := currentColor cm; strokeWidth := strokeWidth cm;
          currentPath := currentPath cm ++ [pos]; lastPoint := Some pos;
          operations := operations cm |}.

(** The [drawData] of [handleDrawEnd]:
    [{ path, color, width, tool }]. *)
Definition drawData (cm : t) : JsVal :=
  JObj [("path", JArr (currentPath cm));
        ("color", JStr (currentColor cm));
        ("width", JNum (strokeWidth cm));
        ("tool", JStr (currentTool cm))].

(** [addOperation(operation)] *)
Definition addOperation (cm : t) (operation : Operation) : t :=
  {| isDrawing := isDrawing cm; currentTool := currentTool cm;
     currentColor := currentColor cm; strokeWidth := strokeWidth cm;
     currentPath := currentPath cm; lastPoint := lastPoint cm;
     operations := operations cm ++ [operation] |}.

(** [removeLastOperation()] *)
Definition removeLastOperation (cm : t) : t :=
  if decide (0 < length (operations cm))
  then {| isDrawing := isDrawing cm; currentTool := currentTool cm;
          currentColor := currentColor cm; strokeWidth := strokeWidth cm;
          currentPath := currentPath cm; lastPoint := lastPoint cm;
          operations := (DrawingState.array_pop (operations cm)).1 |}
  else cm.

(** [clear()] *)
Definition clear (cm : t) : t :=
  {| isDrawing := isDrawing cm; currentTool := currentTool cm;
     currentColor := currentColor cm; strokeWidth := strokeWidth cm;
     currentPath := currentPath cm; lastPoint := lastPoint cm;
     operations := [] |}.

(** [loadOperations(operations)] *)
Definition loadOperations (cm : t) (ops : list Operation) : t :=
  {| isDrawing := isDrawing cm; currentTool := currentTool cm;
     currentColor := currentColor cm; strokeWidth := strokeWidth cm;
     currentPath := currentPath cm; lastPoint := lastPoint cm;
     operations := ops |}.

(** [getOperationCount()] *)
Definition getOperationCount (cm : t) : nat := length (operations cm).

End CanvasManager.

(** The two global instances of the application file. *)
Record Client : Type := mkClient {
  canvasManager : CanvasManager.t;
  wsManager : WebSocketManager.t
}.

Definition new_client : Client :=
  {| canvasManager := CanvasManager.new; wsManager := WebSocketManager.new |}.

(** [CanvasManager.handleDrawMove(event)]: the cursor position goes to
    [window.wsManager] first, then the path grows if a stroke is under
    way. *)
Definition handleDrawMove (cl : Client) (pos : JsVal) (now : Z)
  : Client * list ClientEmit :=
  let '(w', emits) :=
    WebSocketManager.sendCursorPosition (wsManager cl)
      (js_field "x" pos) (js_field "y" pos) now in
  ({| canvasManager := CanvasManager.extendPath (canvasManager cl) pos;
      wsManager := w' |}, emits).

(** [CanvasManager.handleDrawEnd(event)] *)
Definition handleDrawEnd (cl : Client) : Client * list ClientEmit :=
  let cm := canvasManager cl in
  if negb (CanvasManager.isDrawing cm) then (cl, [])
  else
    ({| canvasManager :=
          {| CanvasManager.isDrawing := false;
             CanvasManager.currentTool := CanvasManager.currentTool cm;
             CanvasManager.currentColor := CanvasManager.currentColor cm;
             CanvasManager.strokeWidth := CanvasManager.strokeWidth cm;
             CanvasManager.currentPath := [];
             CanvasManager.lastPoint := None;
             CanvasManager.operations := CanvasManager.operations cm |};
        wsManager := wsManager cl |},
     if decide (0 < length (CanvasManager.currentPath cm))
     then WebSocketManager.sendDrawing (wsManager cl)
            (CanvasManager.drawData cm)
     else []).

(** The pointer events of the canvas: mousedown or touchstart, mousemove or
    touchmove (with the time of the event), and mouseup, mouseleave,
    touchend or touchcancel. *)
Inductive Pointer : Type :=
  | PointerDown (pos : JsVal)
  | PointerMove (pos : JsVal) (now : Z)
  | PointerUp.

Definition pointer (cl : Client) (e : Pointer) : Client * list ClientEmit :=
  match e with
  | PointerDown pos =>
      ({| canvasManager :=
            CanvasManager.handleDrawStart (canvasManager cl) pos;
          wsManager := wsManager cl |}, [])
  | PointerMove pos now => handleDrawMove cl pos now
  | PointerUp => handleDrawEnd cl
  end.

Fixpoint pointers (cl : Client) (es : list Pointer)
  : Client * list ClientEmit :=
  match es with
  | [] => (cl, [])
  | e :: es' =>
      let '(cl1, out1) := pointer cl e in
      let '(cl2, out2) := pointers cl1 es' in
      (cl2, out1 ++ out2)
  end.

(** The socket handlers of [setupEventHandlers] followed by the callbacks of
    [setupWebSocketCallbacks], for a message from the server. *)
Definition receive (cl : Client) (msg : Msg) : Client :=
  match msg with
  | InitState uid info ops us =>
      {| canvasManager :=
           CanvasManager.loadOperations (canvasManager cl) ops;
         wsManager :=
           WebSocketManager.on_init_state (wsManager cl) uid info |}
  | DrawMsg operation =>
      {| canvasManager :=
           CanvasManager.addOperation (canvasManager cl) operation;
         wsManager := wsManager cl |}
  | UndoMsg _ =>
      {| canvasManager :=
           CanvasManager.removeLastOperation (canvasManager cl);
         wsManager := wsManager cl |}
  | ClearCanvas =>
      {| canvasManager := CanvasManager.clear (canvasManager cl);
         wsManager := wsManager cl |}
  | UserJoined _ | UserLeft _ | UsersUpdate _ | CursorMove _ _ _ _ _ => cl
  end.

(** What the socket [sid], being in the socket.io room [room], gets of an
    effect of the server: what is emitted to it alone, to its room without
    the sender when it is not the sender, and to its whole room. *)
Definition heard_by (room sid : string) (e : Effect) : option Msg :=
  match e with
  | Emit (ToSelf s) msg => if decide (s = sid) then Some msg else None
  | Emit (ToOthers r sender) msg =>
      if decide (r = room ∧ sender ≠ sid) then Some msg else None
  | Emit (ToAll r) msg => if decide (r = room) then Some msg else None
  | _ => None
  end.

(** The client after the messages it gets of a list of effects, in
    order. *)
Definition hears (cl : Client) (room sid : string) (effs : list Effect)
  : Client :=
  foldl receive cl (omap (heard_by room sid) effs).

(** The strokes among what a client sent. *)
Definition strokes_sent (out : list ClientEmit) : list JsVal :=
  omap (λ e, match e with SendDraw d => Some d | _ => None end) out.

(** The times at which a sequence of [sendCursorPosition] calls, each with
    its coordinates and the time of the call, sent a cursor message. *)
Fixpoint cursor_send_times (w : WebSocketManager.t)
    (calls : list (JsVal * JsVal * Z)) : list Z :=
  match calls with
  | [] => []
  | (x, y, now) :: calls' =>
      match WebSocketManager.sendCursorPosition w x y now with
      | (w', []) => cursor_send_times w' calls'
      | (w', _ :: _) => now :: cursor_send_times w' calls'
      end
  end.

(** * Properties *)

(** ** [JsMap] *)

Section JsMapFacts.
Context {V : Type}.
Implicit Types (m : JsMap.t V) (k : string) (v : V).

Lemma JsMap_get_set_eq k v m : JsMap.get k (JsMap.set k v m) = Some v.
Proof.
  induction m as [|[k' v'] m IH]; simpl.
  - by rewrite decide_True.
  - destruct (decide (k' = k)) as [->|Hne]; simpl.
    + by rewrite decide_True.
    + by rewrite decide_False.
Qed.

Lemma JsMap_get_set_ne k k' v m :
  k ≠ k' → JsMap.get k' (JsMap.set k v m) = JsMap.get k' m.
Proof.
  intros Hne. induction m as [|[k0 v0] m IH]; simpl.
  - by rewrite decide_False.
  - destruct (decide (k0 = k)) as [->|Hk]; simpl.
    + by rewrite !decide_False.
    + destruct (decide (k0 = k')); [done | apply IH].
Qed.

Lemma JsMap_get_delete_eq k m : JsMap.get k (JsMap.delete k m) = None.
Proof.
  induction m as [|[k' v'] m IH]; simpl; [done|].
  destruct (decide (k' = k)); simpl; [done|].
  by rewrite decide_False.
Qed.

Lemma JsMap_get_delete_ne k k' m :
  k ≠ k' → JsMap.get k' (JsMap.delete k m) = JsMap.get k' m.
Proof.
  intros Hne. induction m as [|[k0 v0] m IH]; simpl; [done|].
  destruct (decide (k0 = k)) as [->|Hk]; simpl.
  - by rewrite decide_False.
  - destruct (decide (k0 = k')); [done | apply IH].
Qed.

Lemma JsMap_get_size_zero k m : JsMap.size m = 0 → JsMap.get k m = None.
Proof. unfold JsMap.size. by destruct m. Qed.

Lemma JsMap_has_get k m : JsMap.has k m = true ↔ is_Some (JsMap.get k m).
Proof.
  unfold JsMap.has. destruct (JsMap.get k m); split; try done.
Qed.

Lemma JsMap_has_false k m : JsMap.has k m = false ↔ JsMap.get k m = None.
Proof. unfold JsMap.has. by destruct (JsMap.get k m). Qed.

Lemma JsMap_keys_get k m : k ∈ m.*1 ↔ is_Some (JsMap.get k m).
Proof.
  induction m as [|[k' v'] m IH]; simpl.
  - split; [by intros ?%elem_of_nil | by intros [? ?]].
  - rewrite elem_of_cons, IH.
    destruct (decide (k' = k)) as [->|Hne].
    + split; [by eexists | by left].
    + split; [|by right]. intros [?|?]; [congruence|done].
Qed.

Lemma JsMap_NoDup_set k v m : NoDup m.*1 → NoDup (JsMap.set k v m).*1.
Proof.
  induction m as [|[k' v'] m IH]; simpl.
  - intros _. apply NoDup_singleton.
  - rewrite NoDup_cons. intros [Hnotin Hnd].
    destruct (decide (k' = k)) as [->|Hne]; simpl.
    + by apply NoDup_cons.
    + apply NoDup_cons. split; [|by apply IH].
      rewrite JsMap_keys_get in Hnotin |- *.
      by rewrite JsMap_get_set_ne.
Qed.

Lemma JsMap_NoDup_delete k m : NoDup m.*1 → NoDup (JsMap.delete k m).*1.
Proof.
  induction m as [|[k' v'] m IH]; simpl; [done|].
  rewrite NoDup_cons. intros [Hnotin Hnd].
  destruct (decide (k' = k)) as [->|Hne]; simpl; [by apply IH|].
  apply NoDup_cons. split; [|by apply IH].
  rewrite JsMap_keys_get in Hnotin |- *.
  by rewrite JsMap_get_delete_ne.
Qed.

Lemma JsMap_NoDup_foldl_delete (ks : list string) m :
  NoDup m.*1 → NoDup (foldl (λ r rid, JsMap.delete rid r) m ks).*1.
Proof.
  revert m. induction ks as [|k0 ks IH]; intros m H; simpl; [done|].
  by apply IH, JsMap_NoDup_delete.
Qed.

(** With distinct keys, an entry of the list is what [get] finds. *)
Lemma JsMap_get_entry k v m :
  NoDup m.*1 → (k, v) ∈ m → JsMap.get k m = Some v.
Proof.
  induction m as [|[k' v'] m IH]; simpl.
  - by intros _ ?%elem_of_nil.
  - rewrite NoDup_cons, elem_of_cons. intros [Hnotin Hnd] [[= -> ->]|Hin].
    + by rewrite decide_True.
    + destruct (decide (k' = k)) as [->|Hne]; [|by apply IH].
      exfalso. apply Hnotin.
      apply list_elem_of_fmap. by exists (k, v).
Qed.

Lemma JsMap_get_foldl_delete_other (ks : list string) m k :
  k ∉ ks →
  JsMap.get k (foldl (λ r rid, JsMap.delete rid r) m ks) = JsMap.get k m.
Proof.
  revert m. induction ks as [|k0 ks IH]; intros m Hk; simpl; [done|].
  apply not_elem_of_cons in Hk as [Hne Hk].
  rewrite IH by done. by apply JsMap_get_delete_ne.
Qed.

Lemma JsMap_keys_set_present k v m :
  is_Some (JsMap.get k m) → (JsMap.set k v m).*1 = m.*1.
Proof.
  induction m as [|[k' v'] m IH]; simpl; [by intros [? ?]|].
  destruct (decide (k' = k)) as [->|Hne]; simpl; [done|].
  intros H. f_equal. by apply IH.
Qed.

Lemma JsMap_has_nonempty k m : JsMap.has k m = true → JsMap.size m ≠ 0.
Proof. unfold JsMap.has, JsMap.size. by destruct m. Qed.

End JsMapFacts.

(** ** The operation log *)

Section LogFacts.
Import DrawingState.
Implicit Types (s : DrawingState.t) (c : Call) (cs : list Call).

Lemma array_pop_snoc {A} (l : list A) (x : A) :
  array_pop (l ++ [x]) = (l, Some x).
Proof.
  unfold array_pop. rewrite last_snoc, length_app. simpl.
  replace (length l + 1 - 1) with (length l) by lia.
  by rewrite take_app_length.
Qed.

Lemma undo_empty s : operations s = [] → undo s = (s, None).
Proof. intros H. unfold undo. by rewrite H. Qed.

Lemma undo_snoc s l op :
  operations s = l ++ [op] →
  undo s =
    ({| roomId := roomId s; operations := l;
        currentOperationId := currentOperationId s; users := users s |},
     Some op).
Proof.
  intros H. unfold undo. rewrite H, array_pop_snoc, length_app. simpl.
  rewrite decide_False by lia. done.
Qed.

Lemma run_snoc s cs c : run s (cs ++ [c]) = (call (run s cs) c).1.
Proof. unfold run. by rewrite foldl_app. Qed.

Lemma run_cons s cs c : run s (c :: cs) = run (call s c).1 cs.
Proof. done. Qed.

Lemma run_app s cs1 cs2 : run s (cs1 ++ cs2) = run (run s cs1) cs2.
Proof. unfold run. by rewrite foldl_app. Qed.

Lemma log_inv_new rid : log_inv (new rid).
Proof. split; constructor. Qed.

Lemma log_inv_clear s : log_inv (clear s).
Proof. split; constructor. Qed.

Lemma log_inv_addOperation s p now :
  log_inv s → log_inv (addOperation s p now).1.
Proof.
  intros [Hs Hb]. unfold log_inv, log_ids, ascending in *. simpl.
  rewrite fmap_app. simpl. split.
  - apply StronglySorted_app_2; [|done|repeat constructor].
    intros x1 x2 H1 ->%list_elem_of_singleton.
    rewrite Forall_forall in Hb. by apply Hb.
  - rewrite Forall_app. split.
    + eapply Forall_impl; [exact Hb|]. simpl. lia.
    + repeat constructor.
Qed.

Lemma log_inv_undo s : log_inv s → log_inv (undo s).1.
Proof.
  intros [Hs Hb].
  destruct (operations s) as [|o l] eqn:Hops using rev_ind.
  - rewrite undo_empty by done. by split.
  - clear IHl. erewrite undo_snoc by done.
    unfold log_inv, log_ids, ascending in *. simpl.
    rewrite Hops, fmap_app in Hs, Hb.
    apply StronglySorted_app_1_l in Hs. apply Forall_app in Hb as [Hb _].
    done.
Qed.

Lemma log_inv_call s c : log_inv s → log_inv (call s c).1.
Proof.
  destruct c; simpl; intros H.
  - by apply log_inv_addOperation.
  - by apply log_inv_undo.
  - apply log_inv_clear.
  - exact H.
  - exact H.
Qed.

Lemma log_inv_run s cs : log_inv s → log_inv (run s cs).
Proof.
  revert s. induction cs as [|c cs IH]; intros s H; [done|].
  rewrite run_cons. by apply IH, log_inv_call.
Qed.

(** A strictly ascending list of naturals below [n] has at most [n]
    elements. *)
Lemma ascending_length_le (ids : list nat) (n : nat) :
  ascending ids → Forall (λ i, i < n) ids → length ids ≤ n.
Proof.
  unfold ascending. revert n.
  induction ids as [|x l IH] using rev_ind; intros n Hs Hb; simpl; [lia|].
  rewrite length_app. simpl.
  apply Forall_app in Hb as [_ Hx]. rewrite Forall_singleton in Hx.
  apply StronglySorted_app in Hs as (Hlt & Hl & _).
  assert (length l ≤ x); [|lia].
  apply IH; [done|]. apply Forall_forall. intros y Hy.
  apply Hlt; [done|]. by apply list_elem_of_singleton.
Qed.

End LogFacts.

Section LogClaims.
Import DrawingState.
Implicit Types (s : DrawingState.t) (c : Call) (cs : list Call).

Lemma gap_free_length s :
  gap_free_from_zero s → length (operations s) = currentOperationId s.
Proof.
  unfold gap_free_from_zero, log_ids. intros H.
  by rewrite <- (length_fmap op_id), H, length_seq.
Qed.

Lemma gap_free_call s c :
  is_undo c = false → gap_free_from_zero s → gap_free_from_zero (call s c).1.
Proof.
  unfold gap_free_from_zero, log_ids.
  destruct c; simpl; intros Hc H; try done.
  rewrite fmap_app, H. symmetry. apply (seq_S (currentOperationId s) 0).
Qed.

Lemma gap_free_run s cs :
  undo_free cs = true → gap_free_from_zero s → gap_free_from_zero (run s cs).
Proof.
  revert s. induction cs as [|c cs IH]; intros s Hcs H; [done|].
  simpl in Hcs. apply andb_true_iff in Hcs as [Hc Hcs].
  apply negb_true_iff in Hc.
  rewrite run_cons. apply IH; [done|]. by apply gap_free_call.
Qed.

Lemma gap_free_ids s :
  gap_free_from_zero s → log_ids s = seq 0 (length (operations s)).
Proof. intros H. by rewrite (gap_free_length s H). Qed.

(** C1, as stated, fails: after two appends, an undo and one more append the
    log holds the ids 0 and 2, which are not consecutive. *)
Lemma gap_after_undo_then_append :
  let s := run (new "r")
             [CallAddOperation sample_op 10; CallAddOperation sample_op 11;
              CallUndo; CallAddOperation sample_op 12] in
  log_ids s = [0; 2] ∧ ¬ consecutive (log_ids s).
Proof.
  split; [reflexivity|].
  intros [a Ha]. vm_compute in Ha. congruence.
Qed.

(** C1 (amended): in every room, after every sequence of calls, the ids in
    the log are strictly ascending in log order and lie below the id
    counter; and as long as no undo is called after the room's creation or
    after a clear, the log's ids are exactly 0, 1, ..., k-1 for a log of k
    operations. *)
Theorem log_ids_ascending_gap_free_without_undo
    (rid : string) (cs post : list Call) :
  undo_free post = true →
  let s := run (new rid) cs in
  ascending (log_ids s) ∧
  Forall (λ i, i < currentOperationId s) (log_ids s) ∧
  log_ids (run (new rid) post)
    = seq 0 (length (operations (run (new rid) post))) ∧
  log_ids (run (clear s) post)
    = seq 0 (length (operations (run (clear s) post))).
Proof.
  intros Hpost s.
  destruct (log_inv_run (new rid) cs (log_inv_new rid)) as [Hasc Hb].
  repeat split; [done|done| |].
  - by apply gap_free_ids, gap_free_run.
  - by apply gap_free_ids, gap_free_run.
Qed.

Lemma log_ids_ascending_gap_free_without_undo_witness :
  undo_free [CallAddOperation sample_op 5; CallClear;
             CallAddOperation sample_op 6; CallAddOperation sample_op 7]
    = true ∧
  log_ids (run (new "r")
             [CallAddOperation sample_op 5; CallClear;
              CallAddOperation sample_op 6; CallAddOperation sample_op 7])
    = [0; 1].
Proof.
  split; [reflexivity|].
  destruct (log_ids_ascending_gap_free_without_undo "r" [CallUndo]
              [CallAddOperation sample_op 5; CallClear;
               CallAddOperation sample_op 6; CallAddOperation sample_op 7]
              eq_refl) as (_ & _ & H & _).
  exact H.
Defined.

(** C2, as stated, fails: after append, undo, append the log has length 1
    and undo returns the operation with id 1, not 0. *)
Lemma undo_id_not_length_minus_one :
  let s := run (new "r")
             [CallAddOperation sample_op 10; CallUndo;
              CallAddOperation sample_op 11] in
  length (operations s) = 1 ∧
  op_id <$> (undo s).2 = Some 1 ∧
  op_id <$> (undo s).2 ≠ Some (length (operations s) - 1).
Proof. repeat split; vm_compute; congruence. Qed.

(** C2 (amended): in every room, after every sequence of calls, undo on an
    empty log returns null and leaves the state as it is; on a log of
    length n > 0 it removes and returns the last operation, whose id is the
    highest in the log, at least n-1 and below the id counter, and leaves
    the other n-1 operations, the id counter, the users and the room id as
    they were. *)
Theorem undo_pops_highest (rid : string) (cs : list Call) :
  let s := run (new rid) cs in
  match operations s with
  | [] => undo s = (s, None)
  | _ :: _ =>
      ∃ op rest,
        undo s =
          ({| roomId := roomId s; operations := rest;
              currentOperationId := currentOperationId s;
              users := users s |}, Some op) ∧
        operations s = rest ++ [op] ∧
        length rest = length (operations s) - 1 ∧
        Forall (λ o, op_id o < op_id op) rest ∧
        length (operations s) - 1 ≤ op_id op ∧
        op_id op < currentOperationId s
  end.
Proof.
  intros s.
  destruct (log_inv_run (new rid) cs (log_inv_new rid)) as [Hasc Hb].
  fold s in Hasc, Hb.
  destruct (operations s) as [|o l] eqn:Hops using rev_ind.
  { by apply undo_empty. }
  clear IHl.
  assert (∃ o' l', l ++ [o] = o' :: l') as (o' & l' & Heq).
  { destruct l; simpl; eauto. }
  rewrite Heq, <- Heq.
  exists o, l. unfold log_ids, ascending in Hasc, Hb.
  rewrite Hops, fmap_app in Hasc, Hb. simpl in Hasc, Hb.
  apply Forall_app in Hb as [Hbl Hbo]. rewrite Forall_singleton in Hbo.
  apply StronglySorted_app in Hasc as (Hlt & Hl & _).
  assert (Forall (λ i, i < op_id o) (op_id <$> l)) as Hlo.
  { apply Forall_forall. intros y Hy. apply Hlt; [done|].
    by apply list_elem_of_singleton. }
  rewrite length_app. simpl.
  split_and!.
  - by apply undo_snoc.
  - done.
  - lia.
  - by rewrite Forall_fmap in Hlo.
  - pose proof (ascending_length_le _ _ Hl Hlo) as Hlen.
    rewrite length_fmap in Hlen. lia.
  - done.
Qed.

Lemma addOperations_spec s (ps : list (PartialOp * Z)) :
  op_id <$> (addOperations s ps).2
    = seq (currentOperationId s) (length ps) ∧
  operations (addOperations s ps).1
    = operations s ++ (addOperations s ps).2 ∧
  currentOperationId (addOperations s ps).1
    = currentOperationId s + length ps ∧
  length (addOperations s ps).2 = length ps.
Proof.
  revert s. induction ps as [|[p now] ps IH]; intros s.
  - simpl. rewrite app_nil_r. split_and!; [done|done|lia|done].
  - cbn [addOperations].
    destruct (addOperation s p now) as [s1 op] eqn:Hadd.
    destruct (IH s1) as (Hids & Hlog & Hctr & Hlen).
    destruct (addOperations s1 ps) as [s2 ops]. simpl in *.
    unfold addOperation in Hadd. injection Hadd as <- <-. simpl in *.
    split_and!.
    + f_equal. exact Hids.
    + by rewrite Hlog, <- app_assoc.
    + lia.
    + by rewrite Hlen.
Qed.

(** C3: in a freshly created room and in a freshly cleared one, n
    consecutive appends return operations with the ids 0, 1, ..., n-1 in
    call order, without repeats, and the log then holds exactly the
    returned records, in that order. *)
Theorem appends_number_from_zero
    (rid : string) (s : DrawingState.t) (ps : list (PartialOp * Z)) :
  (op_id <$> (addOperations (new rid) ps).2 = seq 0 (length ps) ∧
   NoDup (op_id <$> (addOperations (new rid) ps).2) ∧
   operations (addOperations (new rid) ps).1
     = (addOperations (new rid) ps).2) ∧
  (op_id <$> (addOperations (clear s) ps).2 = seq 0 (length ps) ∧
   NoDup (op_id <$> (addOperations (clear s) ps).2) ∧
   operations (addOperations (clear s) ps).1
     = (addOperations (clear s) ps).2).
Proof.
  split.
  - destruct (addOperations_spec (new rid) ps) as (Hids & Hlog & _ & _).
    simpl in Hids, Hlog. rewrite Hids. split_and!; [done| |done].
    apply NoDup_ListNoDup, List.seq_NoDup.
  - destruct (addOperations_spec (clear s) ps) as (Hids & Hlog & _ & _).
    simpl in Hids, Hlog. rewrite Hids. split_and!; [done| |done].
    apply NoDup_ListNoDup, List.seq_NoDup.
Qed.

(** C4: whatever the state of the room, clear empties the log and sets the
    id counter to 0, and the next append returns an operation with id 0,
    which is then the only operation in the log. *)
Theorem clear_then_append_id_zero
    (s : DrawingState.t) (p : PartialOp) (now : Z) :
  operations (clear s) = [] ∧
  currentOperationId (clear s) = 0 ∧
  op_id (addOperation (clear s) p now).2 = 0 ∧
  operations (addOperation (clear s) p now).1
    = [(addOperation (clear s) p now).2].
Proof. by split_and!. Qed.

(** C10: clear touches the operation log and the id counter only; the users
    map, with every stored participant record, and the room id stay as they
    were. *)
Theorem clear_keeps_users_and_roomId (s : DrawingState.t) :
  users (clear s) = users s ∧
  roomId (clear s) = roomId s ∧
  getUsers (clear s) = getUsers s ∧
  (∀ uid, getUser (clear s) uid = getUser s uid) ∧
  clear s =
    {| roomId := roomId s; operations := []; currentOperationId := 0;
       users := users s |}.
Proof. by split_and!. Qed.

Lemma counter_bounds_call s c : counter_bounds s → counter_bounds (call s c).1.
Proof.
  unfold counter_bounds, log_ids. destruct c; simpl; intros H; try done.
  - rewrite fmap_app, Forall_app. split.
    + eapply Forall_impl; [exact H|]. simpl. lia.
    + apply Forall_singleton. simpl. lia.
  - destruct (operations s) as [|o l] eqn:Hops using rev_ind.
    + rewrite undo_empty by done. simpl. by rewrite Hops.
    + erewrite undo_snoc by done. simpl.
      rewrite fmap_app in H. by apply Forall_app in H as [H _].
Qed.

Lemma counter_bounds_run s cs : counter_bounds s → counter_bounds (run s cs).
Proof.
  revert s. induction cs as [|c cs IH]; intros s H; [done|].
  rewrite run_cons. by apply IH, counter_bounds_call.
Qed.

Lemma counter_mono_call s c :
  is_clear c = false →
  currentOperationId s ≤ currentOperationId (call s c).1.
Proof.
  destruct c; simpl; intros Hc; try done; try lia.
  unfold undo. destruct (decide _); [done|].
  destruct (array_pop (operations s)). simpl. lia.
Qed.

(** In a history without clear, every id handed out lies between the
    counter at the start and the counter at the end. *)
Lemma assigned_between s cs :
  clear_free cs = true →
  currentOperationId s ≤ currentOperationId (run s cs) ∧
  Forall (λ o, currentOperationId s ≤ op_id o ∧
               op_id o < currentOperationId (run s cs))
    (assigned s cs).
Proof.
  revert s. induction cs as [|c cs IH]; intros s Hcs.
  { split; [done|constructor]. }
  simpl in Hcs. apply andb_true_iff in Hcs as [Hc Hcs].
  apply negb_true_iff in Hc.
  pose proof (counter_mono_call s c Hc) as Hmono.
  destruct (IH (call s c).1 Hcs) as [Hle Hall].
  rewrite run_cons. split; [lia|].
  destruct c; simpl in *; try done.
  - constructor; [simpl; lia|].
    eapply Forall_impl; [exact Hall|]. simpl. lia.
  - eapply Forall_impl; [exact Hall|]. simpl. lia.
Qed.

(** C9: the id counter is a strict upper bound of the ids in the log of a
    new room, and append, undo and clear (every call) keep it one, so it is
    one in every state a room reaches; and in a history without clear, an
    append, also one that follows undos, returns an id greater than every
    id handed out before it (those of undone operations included) and than
    every id in the log. *)
Theorem counter_strict_upper_bound
    (rid : string) (history : list Call)
    (s : DrawingState.t) (c : Call)
    (pre : list Call) (p : PartialOp) (now : Z) :
  counter_bounds s →
  clear_free pre = true →
  counter_bounds (new rid) ∧
  counter_bounds (run (new rid) history) ∧
  counter_bounds (call s c).1 ∧
  let op := (addOperation (run s pre) p now).2 in
  Forall (λ o, op_id o < op_id op) (assigned s pre) ∧
  Forall (λ i, i < op_id op) (log_ids s) ∧
  Forall (λ i, i < op_id op) (log_ids (run s pre)).
Proof.
  intros Hs Hpre.
  assert (counter_bounds (new rid)) as Hnew by constructor.
  split_and!; [done| |by apply counter_bounds_call|]; simpl.
  { by apply counter_bounds_run. }
  split_and!.
  - destruct (assigned_between s pre Hpre) as [_ H].
    eapply Forall_impl; [exact H|]. simpl. lia.
  - destruct (assigned_between s pre Hpre) as [Hle _].
    eapply Forall_impl; [exact Hs|]. simpl. lia.
  - by apply counter_bounds_run.
Qed.

Lemma counter_strict_upper_bound_witness :
  let pre := [CallAddOperation sample_op 1; CallAddOperation sample_op 2;
              CallUndo; CallUndo] in
  let op := (addOperation (run (new "r") pre) sample_op 3).2 in
  op_id op = 2 ∧ Forall (λ o, op_id o < op_id op) (assigned (new "r") pre).
Proof.
  split; [reflexivity|].
  refine (proj1 (proj2 (proj2 (proj2
    (counter_strict_upper_bound "r" [] (new "r") CallUndo
       [CallAddOperation sample_op 1; CallAddOperation sample_op 2;
        CallUndo; CallUndo] sample_op 3 _ eq_refl))))).
  constructor.
Defined.

End LogClaims.

(** ** The room store *)

Section RoomStoreClaims.
Import RoomManager.

(** C7: removeRoom deletes the entry of a room exactly when the room exists
    and its users map is empty, and then only that entry goes; when the room
    has users, or does not exist, the store is left as it was. *)
Theorem removeRoom_only_when_empty (m : RoomManager.t) (rid : string) :
  ((removeRoom m rid).2 = true ↔
     ∃ room, getRoom m rid = Some room ∧
             JsMap.size (DrawingState.users room) = 0) ∧
  (if (removeRoom m rid).2
   then rooms (removeRoom m rid).1 = JsMap.delete rid (rooms m) ∧
        getRoom (removeRoom m rid).1 rid = None ∧
        ∀ r, r ≠ rid → getRoom (removeRoom m rid).1 r = getRoom m r
   else (removeRoom m rid).1 = m).
Proof.
  unfold removeRoom, getRoom.
  destruct (JsMap.get rid (rooms m)) as [room|] eqn:Hget.
  - destruct (decide (JsMap.size (DrawingState.users room) = 0)) as [He|Hne];
      simpl.
    + split; [split; eauto|]. split_and!; [done| |].
      * apply JsMap_get_delete_eq.
      * intros r Hr. by apply JsMap_get_delete_ne.
    + split; [|done]. split; [done|]. intros (room' & [= <-] & Hz). done.
  - simpl. split; [|done]. split; [done|]. by intros (room' & [=] & _).
Qed.

End RoomStoreClaims.

(** ** Membership under the handlers' steps *)

Section MembershipFacts.
Implicit Types (srv : Server) (c : Conn) (rid sid : string).

Lemma has_delete {V} (m : JsMap.t V) sid sid' :
  JsMap.has sid' (JsMap.delete sid m)
    = if decide (sid = sid') then false else JsMap.has sid' m.
Proof.
  unfold JsMap.has. destruct (decide (sid = sid')) as [->|Hne].
  - by rewrite JsMap_get_delete_eq.
  - by rewrite JsMap_get_delete_ne.
Qed.

Lemma has_set {V} (m : JsMap.t V) sid sid' v :
  JsMap.has sid' (JsMap.set sid v m)
    = if decide (sid = sid') then true else JsMap.has sid' m.
Proof.
  unfold JsMap.has. destruct (decide (sid = sid')) as [->|Hne].
  - by rewrite JsMap_get_set_eq.
  - by rewrite JsMap_get_set_ne.
Qed.

Lemma is_member_mutated srv ci rid room r sid :
  is_member
    {| roomManager := RoomManager.mutated (roomManager srv) rid room;
       colorIndex := ci |} r sid
  = if decide (rid = r) then JsMap.has sid (DrawingState.users room)
    else is_member srv r sid.
Proof.
  unfold is_member, RoomManager.getRoom, RoomManager.mutated. simpl.
  destruct (decide (rid = r)) as [->|Hne].
  - by rewrite JsMap_get_set_eq.
  - by rewrite JsMap_get_set_ne.
Qed.

Lemma is_member_room srv rid room sid :
  RoomManager.getRoom (roomManager srv) rid = Some room →
  is_member srv rid sid = JsMap.has sid (DrawingState.users room).
Proof. unfold is_member. by intros ->. Qed.

Lemma is_member_no_room srv rid sid :
  RoomManager.getRoom (roomManager srv) rid = None →
  is_member srv rid sid = false.
Proof. unfold is_member. by intros ->. Qed.

(** A room mutated without a change of its users map. *)
Lemma is_member_same_users srv ci rid room room' r sid :
  RoomManager.getRoom (roomManager srv) rid = Some room →
  DrawingState.users room' = DrawingState.users room →
  is_member
    {| roomManager := RoomManager.mutated (roomManager srv) rid room';
       colorIndex := ci |} r sid
  = is_member srv r sid.
Proof.
  intros Hget Hus. rewrite is_member_mutated.
  destruct (decide (rid = r)) as [<-|]; [|done].
  by rewrite Hus, (is_member_room _ _ _ _ Hget).
Qed.

Lemma join_leave_member_self srv c A r :
  truthy (currentRoom c) = Some A →
  is_member (join_leave srv c).1 r (socket_id c)
    = if decide (A = r) then false else is_member srv r (socket_id c).
Proof.
  intros HA. unfold join_leave. rewrite HA.
  destruct (RoomManager.getRoom (roomManager srv) A) as [old|] eqn:Hget;
    simpl.
  - rewrite is_member_mutated. destruct (decide (A = r)); [|done].
    simpl. rewrite has_delete. by rewrite decide_True.
  - destruct (decide (A = r)) as [<-|]; [|done].
    by apply is_member_no_room.
Qed.

Lemma join_leave_member_other srv c r sid :
  sid ≠ socket_id c →
  is_member (join_leave srv c).1 r sid = is_member srv r sid.
Proof.
  intros Hne. unfold join_leave.
  destruct (truthy (currentRoom c)) as [A|]; [|done].
  destruct (RoomManager.getRoom (roomManager srv) A) as [old|] eqn:Hget;
    simpl; [|done].
  rewrite is_member_mutated. destruct (decide (A = r)) as [<-|]; [|done].
  simpl. rewrite has_delete, decide_False by done.
  by rewrite (is_member_room _ _ _ _ Hget).
Qed.

Lemma join_leave_unbound srv c :
  truthy (currentRoom c) = None → join_leave srv c = (srv, []).
Proof. intros H. unfold join_leave. by rewrite H. Qed.

Lemma join_create_member srv rid r sid :
  is_member (join_create srv rid).1 r sid = is_member srv r sid.
Proof.
  unfold join_create, RoomManager.getOrCreateRoom.
  destruct (JsMap.get rid (RoomManager.rooms (roomManager srv)))
    as [room|] eqn:Hget; simpl; [done|].
  unfold is_member, RoomManager.getRoom. simpl.
  destruct (decide (rid = r)) as [<-|Hne].
  - by rewrite JsMap_get_set_eq, Hget.
  - by rewrite JsMap_get_set_ne.
Qed.

Lemma join_create_room srv rid :
  RoomManager.getRoom (roomManager (join_create srv rid).1) rid
    = Some (join_create srv rid).2.
Proof.
  unfold join_create, RoomManager.getOrCreateRoom, RoomManager.getRoom.
  destruct (JsMap.get rid (RoomManager.rooms (roomManager srv)))
    as [room|] eqn:Hget; simpl; [done|].
  by rewrite JsMap_get_set_eq.
Qed.

Lemma join_create_colorIndex srv rid :
  colorIndex (join_create srv rid).1 = colorIndex srv.
Proof.
  unfold join_create. by destruct (RoomManager.getOrCreateRoom _ _).
Qed.

Lemma join_add_member srv room sid rid username now r sid' :
  RoomManager.getRoom (roomManager srv) rid = Some room →
  is_member (join_add srv room sid rid username now).1.1 r sid'
    = if decide (rid = r)
      then (if decide (sid = sid') then true else is_member srv r sid')
      else is_member srv r sid'.
Proof.
  intros Hget. unfold join_add. simpl. rewrite is_member_mutated.
  destruct (decide (rid = r)) as [<-|]; [|done].
  simpl. rewrite has_set. destruct (decide (sid = sid')); [done|].
  by rewrite (is_member_room _ _ _ _ Hget).
Qed.

(** The handler's final state is the last of the states it goes through. *)
Lemma on_join_final srv c data gen now :
  last (join_states srv c data gen now)
    = Some (on_join srv c data gen now).1.1.
Proof.
  unfold join_states, on_join.
  destruct (join_leave srv c) as [srv1 leaving]. simpl.
  destruct (join_create srv1 (join_target data)) as [srv2 room].
  destruct (join_add srv2 room (socket_id c) (join_target data)
              (js_or (jd_username data) gen) now) as [[srv3 info] room'].
  done.
Qed.

Lemma on_join_conn srv c data gen now :
  socket_id (on_join srv c data gen now).1.2 = socket_id c ∧
  currentRoom (on_join srv c data gen now).1.2 = Some (join_target data).
Proof.
  unfold on_join.
  destruct (join_leave srv c) as [srv1 leaving].
  destruct (join_create srv1 (join_target data)) as [srv2 room].
  destruct (join_add srv2 room (socket_id c) (join_target data)
              (js_or (jd_username data) gen) now) as [[srv3 info] room'].
  done.
Qed.

Lemma join_target_truthy data : truthy (Some (join_target data))
  = Some (join_target data).
Proof.
  unfold join_target, js_or, truthy.
  destruct (jd_roomId data) as [s|]; [|done].
  destruct (decide (s = "")) as [->|Hs]; [done|].
  by rewrite decide_False.
Qed.

End MembershipFacts.

(** ** The handlers and the membership of rooms *)

Section HandlerFacts.
Implicit Types (srv : Server) (c : Conn) (rid sid : string) (σ : System).

Lemma on_join_server srv c data gen now :
  (on_join srv c data gen now).1.1
  = (join_add (join_create (join_leave srv c).1 (join_target data)).1
       (join_create (join_leave srv c).1 (join_target data)).2
       (socket_id c) (join_target data)
       (js_or (jd_username data) gen) now).1.1.
Proof.
  unfold on_join.
  destruct (join_leave srv c) as [srv1 leaving]. simpl.
  destruct (join_create srv1 (join_target data)) as [srv2 room]. simpl.
  by destruct (join_add srv2 room (socket_id c) (join_target data)
                 (js_or (jd_username data) gen) now) as [[srv3 info] room'].
Qed.

Lemma on_join_member_self srv c data gen now r :
  is_member (on_join srv c data gen now).1.1 r (socket_id c)
  = if decide (join_target data = r) then true
    else match truthy (currentRoom c) with
         | Some A => if decide (A = r) then false
                     else is_member srv r (socket_id c)
         | None => is_member srv r (socket_id c)
         end.
Proof.
  rewrite on_join_server.
  rewrite (join_add_member _ _ _ _ _ _ _ _ (join_create_room _ _)).
  rewrite (decide_True (P := socket_id c = socket_id c)) by done.
  destruct (decide (join_target data = r)); [done|].
  rewrite join_create_member.
  destruct (truthy (currentRoom c)) as [A|] eqn:HA.
  - by apply join_leave_member_self.
  - by rewrite join_leave_unbound.
Qed.

Lemma on_join_member_other srv c data gen now r sid :
  sid ≠ socket_id c →
  is_member (on_join srv c data gen now).1.1 r sid = is_member srv r sid.
Proof.
  intros Hne. rewrite on_join_server.
  rewrite (join_add_member _ _ _ _ _ _ _ _ (join_create_room _ _)).
  rewrite (decide_False (P := socket_id c = sid)) by done.
  rewrite join_create_member, join_leave_member_other by done.
  by destruct (decide _).
Qed.

Lemma undo_users (room : DrawingState.t) :
  DrawingState.users (DrawingState.undo room).1 = DrawingState.users room.
Proof.
  unfold DrawingState.undo. destruct (decide _); [done|].
  by destruct (DrawingState.array_pop _).
Qed.

Lemma mutated_keys srv rid room room' :
  RoomManager.getRoom (roomManager srv) rid = Some room →
  (RoomManager.rooms (RoomManager.mutated (roomManager srv) rid room')).*1
    = (RoomManager.rooms (roomManager srv)).*1.
Proof.
  intros Hget. unfold RoomManager.mutated. simpl.
  apply JsMap_keys_set_present. unfold RoomManager.getRoom in Hget.
  by rewrite Hget.
Qed.

Lemma on_draw_quiet data now : quiet (λ srv c, on_draw srv c data now).
Proof.
  intros srv c. unfold on_draw.
  destruct (truthy (currentRoom c)) as [cur|]; [|done].
  destruct (RoomManager.getRoom (roomManager srv) cur) as [room|] eqn:Hget;
    [|done].
  simpl. split_and!; [done| |by apply mutated_keys with room].
  intros r sid. by apply is_member_same_users with room.
Qed.

Lemma on_cursor_move_quiet data : quiet (λ srv c, on_cursor_move srv c data).
Proof.
  intros srv c. unfold on_cursor_move.
  by destruct (truthy (currentRoom c)).
Qed.

Lemma on_undo_quiet : quiet on_undo.
Proof.
  intros srv c. unfold on_undo.
  destruct (truthy (currentRoom c)) as [cur|]; [|done].
  destruct (RoomManager.getRoom (roomManager srv) cur) as [room|] eqn:Hget;
    [|done].
  pose proof (undo_users room) as Hus.
  destruct (DrawingState.undo room) as [room' [op|]]; [|done].
  simpl. split_and!; [done| |by apply mutated_keys with room].
  intros r sid. by apply is_member_same_users with room.
Qed.

Lemma on_clear_canvas_quiet : quiet on_clear_canvas.
Proof.
  intros srv c. unfold on_clear_canvas.
  destruct (truthy (currentRoom c)) as [cur|]; [|done].
  destruct (RoomManager.getRoom (roomManager srv) cur) as [room|] eqn:Hget;
    [|done].
  simpl. split_and!; [done| |by apply mutated_keys with room].
  intros r sid. by apply is_member_same_users with room.
Qed.

Lemma join_leave_keys srv c : keys_ok srv → keys_ok (join_leave srv c).1.
Proof.
  unfold join_leave, keys_ok.
  destruct (truthy (currentRoom c)) as [cur|]; [|done].
  destruct (RoomManager.getRoom (roomManager srv) cur) as [room|] eqn:Hget;
    [|done].
  simpl. intros H. by apply JsMap_NoDup_set.
Qed.

Lemma join_create_keys srv rid : keys_ok srv → keys_ok (join_create srv rid).1.
Proof.
  unfold join_create, RoomManager.getOrCreateRoom, keys_ok.
  destruct (JsMap.get rid (RoomManager.rooms (roomManager srv))); [done|].
  simpl. intros H. by apply JsMap_NoDup_set.
Qed.

Lemma on_join_keys srv c data gen now :
  keys_ok srv → keys_ok (on_join srv c data gen now).1.1.
Proof.
  intros H. rewrite on_join_server. unfold join_add, keys_ok. simpl.
  by apply JsMap_NoDup_set, join_create_keys, join_leave_keys.
Qed.

Lemma on_disconnect_keys srv c :
  keys_ok srv → keys_ok (on_disconnect srv c).1.1.
Proof.
  unfold on_disconnect, keys_ok.
  destruct (truthy (currentRoom c)) as [cur|]; [|done].
  destruct (RoomManager.getRoom (roomManager srv) cur) as [room|] eqn:Hget;
    [|done].
  simpl. intros H. by apply JsMap_NoDup_set.
Qed.

Lemma on_disconnect_member srv c r sid :
  is_member (on_disconnect srv c).1.1 r sid = true →
  is_member srv r sid = true ∧
  (sid = socket_id c → truthy (currentRoom c) ≠ Some r).
Proof.
  unfold on_disconnect.
  destruct (truthy (currentRoom c)) as [cur|] eqn:Hcur; [|done].
  destruct (RoomManager.getRoom (roomManager srv) cur) as [room|] eqn:Hget.
  - simpl. rewrite is_member_mutated.
    destruct (decide (cur = r)) as [<-|Hne].
    + simpl. rewrite has_delete.
      destruct (decide (socket_id c = sid)) as [<-|Hs]; [done|].
      rewrite (is_member_room _ _ _ _ Hget). intros H. split; [done|].
      intros ->. done.
    + intros H. split; [done|]. intros _ [= ->]. done.
  - simpl. intros H. split; [done|]. intros _ [= ->].
    by rewrite (is_member_no_room _ _ _ Hget) in H.
Qed.

Lemma on_disconnect_member_other srv c r sid :
  sid ≠ socket_id c →
  is_member (on_disconnect srv c).1.1 r sid = is_member srv r sid.
Proof.
  intros Hne. unfold on_disconnect.
  destruct (truthy (currentRoom c)) as [cur|]; [|done].
  destruct (RoomManager.getRoom (roomManager srv) cur) as [room|] eqn:Hget;
    [|done].
  simpl. rewrite is_member_mutated.
  destruct (decide (cur = r)) as [<-|]; [|done].
  simpl. rewrite has_delete, decide_False by done.
  by rewrite (is_member_room _ _ _ _ Hget).
Qed.

Lemma removeRoom_member srv rid r sid :
  is_member
    {| roomManager := (RoomManager.removeRoom (roomManager srv) rid).1;
       colorIndex := colorIndex srv |} r sid
  = is_member srv r sid.
Proof.
  unfold RoomManager.removeRoom.
  destruct (JsMap.get rid (RoomManager.rooms (roomManager srv)))
    as [room|] eqn:Hget; [|by destruct srv].
  destruct (decide _) as [Hempty|]; [|by destruct srv].
  unfold is_member, RoomManager.getRoom. simpl.
  destruct (decide (rid = r)) as [<-|Hne].
  - rewrite JsMap_get_delete_eq, Hget. symmetry.
    apply JsMap_has_false. by apply JsMap_get_size_zero.
  - by rewrite JsMap_get_delete_ne.
Qed.

Lemma removeRoom_keys srv rid :
  keys_ok srv →
  keys_ok {| roomManager := (RoomManager.removeRoom (roomManager srv) rid).1;
             colorIndex := colorIndex srv |}.
Proof.
  unfold RoomManager.removeRoom, keys_ok.
  destruct (JsMap.get rid (RoomManager.rooms (roomManager srv))); [|done].
  destruct (decide _); [|done].
  simpl. intros H. by apply JsMap_NoDup_delete.
Qed.

Lemma get_foldl_delete {V} (ks : list string) (m : JsMap.t V) k v :
  JsMap.get k (foldl (λ r rid, JsMap.delete rid r) m ks) = Some v →
  JsMap.get k m = Some v.
Proof.
  revert m. induction ks as [|k0 ks IH]; intros m; simpl; [done|].
  intros H%IH. destruct (decide (k0 = k)) as [->|Hne].
  - by rewrite JsMap_get_delete_eq in H.
  - by rewrite JsMap_get_delete_ne in H.
Qed.

(** The sweep removes rooms without users only, so nobody's membership
    changes. *)
Lemma cleanupEmptyRooms_member srv r sid :
  keys_ok srv →
  is_member
    {| roomManager := (RoomManager.cleanupEmptyRooms (roomManager srv)).1;
       colorIndex := colorIndex srv |} r sid
  = is_member srv r sid.
Proof.
  intros Hk.
  unfold is_member, RoomManager.getRoom, RoomManager.cleanupEmptyRooms.
  simpl.
  destruct (JsMap.get r (foldl _ _ _)) as [room|] eqn:Hget.
  { apply get_foldl_delete in Hget. by rewrite Hget. }
  destruct (JsMap.get r (RoomManager.rooms (roomManager srv)))
    as [room|] eqn:Hr; [|done].
  symmetry. apply JsMap_has_false.
  destruct (decide (JsMap.size (DrawingState.users room) = 0)) as [Hz|Hnz].
  { by apply JsMap_get_size_zero. }
  exfalso. rewrite JsMap_get_foldl_delete_other in Hget; [congruence|].
  intros ([k room0] & -> & [Hz Hin]%list_elem_of_filter)%list_elem_of_fmap.
  simpl in *. unfold JsMap.entries in Hin.
  rewrite (JsMap_get_entry _ _ _ Hk Hin) in Hr. congruence.
Qed.

Lemma cleanupEmptyRooms_keys srv :
  keys_ok srv →
  keys_ok
    {| roomManager := (RoomManager.cleanupEmptyRooms (roomManager srv)).1;
       colorIndex := colorIndex srv |}.
Proof.
  unfold RoomManager.cleanupEmptyRooms, keys_ok. simpl.
  apply JsMap_NoDup_foldl_delete.
Qed.

End HandlerFacts.

(** ** The invariant of the server's runs *)

Section SystemFacts.
Implicit Types (srv : Server) (c : Conn) (rid sid : string) (σ : System).

Lemma sys_inv_initial : sys_inv initial_system.
Proof.
  split.
  - apply NoDup_nil_2.
  - intros sid c H. simpl in H. by rewrite lookup_empty in H.
  - intros rid sid H. done.
  - intros rid sid (c & H & _). simpl in H. by rewrite lookup_empty in H.
Qed.

Lemma sys_inv_deliver_quiet σ sid h :
  quiet h → sys_inv σ → sys_inv (deliver σ sid h).1.
Proof.
  intros Hq [Hk Hc Hm Hb]. unfold deliver.
  destruct (sys_conns σ !! sid) as [c|] eqn:Hsid; [|done].
  destruct (Hq (sys_server σ) c) as (Hc' & Hmem & Hkeys).
  destruct (h (sys_server σ) c) as [[srv' c'] effs]. simpl in *. subst c'.
  rewrite insert_id by done.
  split; simpl.
  - unfold keys_ok. by rewrite Hkeys.
  - done.
  - intros rid sid0 H. rewrite Hmem in H. by apply Hm in H.
  - intros rid sid0 H. rewrite Hmem. by apply Hb.
Qed.

Lemma sys_inv_join σ sid data gen now :
  sys_inv σ →
  sys_inv (deliver σ sid (λ srv c, on_join srv c data gen now)).1.
Proof.
  intros [Hk Hc Hm Hb]. unfold deliver.
  destruct (sys_conns σ !! sid) as [c|] eqn:Hsid; [|done].
  destruct (Hc _ _ Hsid) as [Hid Htr].
  pose proof (on_join_conn (sys_server σ) c data gen now) as [Hid' Hcur'].
  pose proof (λ r, on_join_member_self (sys_server σ) c data gen now r)
    as Hself.
  pose proof (λ r s, on_join_member_other (sys_server σ) c data gen now r s)
    as Hother.
  pose proof (on_join_keys (sys_server σ) c data gen now Hk) as Hk'.
  destruct (on_join (sys_server σ) c data gen now) as [[srv' c'] effs].
  simpl in *. split; simpl.
  - done.
  - intros sid0 c0. rewrite lookup_insert.
    destruct (decide (sid = sid0)) as [<-|Hne]; [|apply Hc].
    intros [= <-]. split; [congruence|].
    rewrite Hcur'. apply join_target_truthy.
  - intros rid sid0 H. unfold bound_to. simpl.
    destruct (decide (sid0 = sid)) as [->|Hne].
    + exists c'. rewrite lookup_insert_eq. split; [done|].
      rewrite Hcur'. f_equal.
      rewrite <- Hid, Hself in H.
      destruct (decide (join_target data = rid)); [done|]. exfalso.
      destruct (truthy (currentRoom c)) as [A|] eqn:HA.
      * destruct (decide (A = rid)); [done|].
        rewrite Hid in H. apply Hm in H as (c1 & Hc1 & Hcur1).
        congruence.
      * rewrite Hid in H. apply Hm in H as (c1 & Hc1 & Hcur1).
        congruence.
    + rewrite Hother in H by congruence.
      apply Hm in H as (c1 & Hc1 & Hcur1).
      exists c1. by rewrite lookup_insert_ne.
  - intros rid sid0 (c0 & Hc0 & Hcur0). simpl in Hc0.
    rewrite lookup_insert in Hc0.
    destruct (decide (sid = sid0)) as [<-|Hne].
    + injection Hc0 as <-. rewrite <- Hid, Hself.
      rewrite decide_True; [done|congruence].
    + rewrite Hother by congruence. apply Hb. by exists c0.
Qed.

Lemma sys_inv_step σ ev : sys_inv σ → sys_inv (sys_step σ ev).1.
Proof.
  intros Hinv. destruct ev; cbn [sys_step].
  - (* connection *)
    destruct Hinv as [Hk Hc Hm Hb].
    destruct (sys_conns σ !! sid) as [c|] eqn:Hsid; [done|].
    split; simpl.
    + done.
    + intros sid0 c0. rewrite lookup_insert.
      destruct (decide (sid = sid0)) as [<-|Hne]; [|apply Hc].
      by intros [= <-].
    + intros rid sid0 H. apply Hm in H as (c1 & Hc1 & Hcur1).
      exists c1. simpl. rewrite lookup_insert_ne; [done|]. congruence.
    + intros rid sid0 (c0 & Hc0 & Hcur0). simpl in Hc0.
      rewrite lookup_insert in Hc0.
      destruct (decide (sid = sid0)) as [<-|Hne].
      * by injection Hc0 as <-.
      * apply Hb. by exists c0.
  - by apply sys_inv_join.
  - apply sys_inv_deliver_quiet; [apply on_draw_quiet | done].
  - apply sys_inv_deliver_quiet; [apply on_cursor_move_quiet | done].
  - apply sys_inv_deliver_quiet; [apply on_undo_quiet | done].
  - apply sys_inv_deliver_quiet; [apply on_clear_canvas_quiet | done].
  - (* disconnect *)
    destruct Hinv as [Hk Hc Hm Hb].
    destruct (sys_conns σ !! sid) as [c|] eqn:Hsid; [|done].
    destruct (Hc _ _ Hsid) as [Hid Htr].
    pose proof (λ r s, on_disconnect_member (sys_server σ) c r s) as Hd.
    pose proof (λ r s, on_disconnect_member_other (sys_server σ) c r s)
      as Hother.
    pose proof (on_disconnect_keys (sys_server σ) c Hk) as Hk'.
    destruct (on_disconnect (sys_server σ) c) as [[srv' c'] effs].
    simpl in *. split; simpl.
    + done.
    + intros sid0 c0 [_ H]%lookup_delete_Some. by apply Hc.
    + intros rid sid0 H. apply Hd in H as [H Hself].
      apply Hm in H as (c1 & Hc1 & Hcur1).
      exists c1. simpl. split; [|done].
      rewrite lookup_delete_ne; [done|]. intros <-.
      apply Hself; [done|]. congruence.
    + intros rid sid0 (c0 & Hc0 & Hcur0). simpl in Hc0.
      apply lookup_delete_Some in Hc0 as [Hne Hc0].
      rewrite Hother by congruence. apply Hb. by exists c0.
  - (* deferred removeRoom *)
    destruct Hinv as [Hk Hc Hm Hb]. split; cbn [sys_server sys_conns fst].
    + by apply removeRoom_keys.
    + done.
    + intros r sid0 H. rewrite removeRoom_member in H. by apply Hm in H.
    + intros r sid0 H. rewrite removeRoom_member. by apply Hb.
  - (* periodic cleanup *)
    destruct Hinv as [Hk Hc Hm Hb]. split; cbn [sys_server sys_conns fst].
    + by apply cleanupEmptyRooms_keys.
    + done.
    + intros r sid0 H. rewrite cleanupEmptyRooms_member in H by done.
      by apply Hm in H.
    + intros r sid0 H. rewrite cleanupEmptyRooms_member by done.
      by apply Hb.
Qed.

Lemma sys_run_cons σ ev evs :
  (sys_run σ (ev :: evs)).1 = (sys_run (sys_step σ ev).1 evs).1 ∧
  (sys_run σ (ev :: evs)).2
    = (sys_step σ ev).2 ++ (sys_run (sys_step σ ev).1 evs).2.
Proof.
  simpl. destruct (sys_step σ ev) as [σ1 effs1]. simpl.
  by destruct (sys_run σ1 evs) as [σ2 effs2].
Qed.

Lemma sys_inv_run σ evs : sys_inv σ → sys_inv (sys_run σ evs).1.
Proof.
  revert σ. induction evs as [|ev evs IH]; intros σ H; [done|].
  destruct (sys_run_cons σ ev evs) as [-> _]. by apply IH, sys_inv_step.
Qed.

End SystemFacts.

(** ** The session handlers *)

Section SessionClaims.
Implicit Types (srv : Server) (c : Conn) (rid sid : string) (σ : System).

(** C5: in every state the server reaches, when a connection bound to room
    A joins another room B, it ends up in the users map of B and of no other
    room, A included, and is bound to B; on the way the handler, which finds
    the connection in A and not in B, first removes it from A, so that after
    the leave and after the room lookup it is in neither room, and only then
    adds it to B: in none of the states the handler goes through is it in
    both. *)
Theorem join_switches_membership
    (evs : list Event) (sid A : string) (data : JoinData)
    (gen : string) (now : Z) :
  let σ := (sys_run initial_system evs).1 in
  let B := join_target data in
  let σ' := (sys_step σ (EvJoinRoom sid data gen now)).1 in
  bound_to σ sid A →
  B ≠ A →
  (is_member (sys_server σ') B sid = true ∧
   is_member (sys_server σ') A sid = false ∧
   (∀ r, is_member (sys_server σ') r sid = true → r = B) ∧
   bound_to σ' sid B) ∧
  ∃ c srv1 srv2,
    sys_conns σ !! sid = Some c ∧
    join_states (sys_server σ) c data gen now
      = [sys_server σ; srv1; srv2; sys_server σ'] ∧
    (is_member (sys_server σ) A sid = true ∧
     is_member (sys_server σ) B sid = false) ∧
    (is_member srv1 A sid = false ∧ is_member srv1 B sid = false) ∧
    (is_member srv2 A sid = false ∧ is_member srv2 B sid = false) ∧
    Forall (λ srv, ¬ (is_member srv A sid = true ∧
                      is_member srv B sid = true))
      (join_states (sys_server σ) c data gen now).
Proof.
  intros σ B σ' (c & Hsid & Hcur) HBA.
  pose proof (sys_inv_run initial_system evs sys_inv_initial) as Hinv.
  fold σ in Hinv. destruct Hinv as [Hk Hc Hm Hb].
  destruct (Hc _ _ Hsid) as [Hid Htr].
  assert (truthy (currentRoom c) = Some A) as HA by congruence.
  assert (is_member (sys_server σ) A sid = true) as HA0.
  { apply Hb. by exists c. }
  assert (sys_server σ' = (on_join (sys_server σ) c data gen now).1.1 ∧
          sys_conns σ' !! sid
            = Some (on_join (sys_server σ) c data gen now).1.2)
    as [Hsrv Hconn].
  { unfold σ'. simpl. unfold deliver. rewrite Hsid.
    destruct (on_join (sys_server σ) c data gen now) as [[srv' c'] effs].
    simpl. by rewrite lookup_insert_eq. }
  assert (∀ r, is_member (sys_server σ) r sid = true → r = A) as Honly.
  { intros r H. apply Hm in H as (c1 & Hc1 & Hcur1). congruence. }
  assert (is_member (sys_server σ) B sid = false) as HB0.
  { destruct (is_member (sys_server σ) B sid) eqn:E; [|done].
    by apply Honly in E. }
  assert (∀ r, is_member (sys_server σ') r sid
               = if decide (B = r) then true
                 else if decide (A = r) then false
                 else is_member (sys_server σ) r sid) as Hfin.
  { intros r. rewrite Hsrv. rewrite <- Hid at 1.
    rewrite on_join_member_self, HA, Hid. done. }
  assert (∀ r, is_member (join_leave (sys_server σ) c).1 r sid
               = if decide (A = r) then false
                 else is_member (sys_server σ) r sid) as Hleft.
  { intros r. rewrite <- Hid at 1.
    by rewrite (join_leave_member_self _ _ A), Hid. }
  split.
  - split_and!.
    + by rewrite Hfin, decide_True.
    + rewrite Hfin, decide_False by done. by rewrite decide_True.
    + intros r. rewrite Hfin.
      destruct (decide (B = r)); [done|].
      destruct (decide (A = r)) as [<-|Hne]; [done|].
      intros H%Honly. done.
    + exists (on_join (sys_server σ) c data gen now).1.2.
      split; [done|]. apply on_join_conn.
  - exists c, (join_leave (sys_server σ) c).1,
      (join_create (join_leave (sys_server σ) c).1 B).1.
    assert (join_states (sys_server σ) c data gen now
            = [sys_server σ; (join_leave (sys_server σ) c).1;
               (join_create (join_leave (sys_server σ) c).1 B).1;
               sys_server σ']) as Hstates.
    { rewrite Hsrv, on_join_server. unfold join_states. fold B.
      by destruct (join_create (join_leave (sys_server σ) c).1 B). }
    assert (is_member (join_leave (sys_server σ) c).1 A sid = false) as H1A.
    { by rewrite Hleft, decide_True. }
    assert (is_member (join_leave (sys_server σ) c).1 B sid = false) as H1B.
    { rewrite Hleft. by destruct (decide (A = B)). }
    split_and!; try done.
    + by rewrite join_create_member.
    + by rewrite join_create_member.
    + rewrite Hstates. repeat constructor.
      * rewrite HB0. by intros [_ ?].
      * rewrite H1A. by intros [? _].
      * rewrite join_create_member, H1A. by intros [? _].
      * rewrite Hfin, decide_False by done. rewrite decide_True by done.
        by intros [? _].
Qed.

Lemma join_switches_membership_witness :
  let evs := [EvConnection "s1";
              EvJoinRoom "s1" {| jd_roomId := Some "roomA";
                                 jd_username := None |} "ZenMaker12" 100%Z] in
  let σ := (sys_run initial_system evs).1 in
  let data := {| jd_roomId := Some "roomB"; jd_username := Some "Ann" |} in
  let σ' := (sys_step σ (EvJoinRoom "s1" data "BoldPainter3" 200%Z)).1 in
  is_member (sys_server σ) "roomA" "s1" = true ∧
  is_member (sys_server σ') "roomB" "s1" = true ∧
  is_member (sys_server σ') "roomA" "s1" = false.
Proof.
  intros evs σ data σ'.
  split; [reflexivity|].
  assert (bound_to σ "s1" "roomA") as Hb.
  { eexists. split; reflexivity. }
  assert (join_target data ≠ "roomA") as Hne by discriminate.
  destruct (join_switches_membership evs "s1" "roomA" data "BoldPainter3"
              200%Z Hb Hne) as [(HB & HA & _) _].
  split; [exact HB | exact HA].
Defined.

Lemma unbound_handlers srv c data now :
  currentRoom c = None →
  on_draw srv c data now = (srv, c, []) ∧
  on_cursor_move srv c data = (srv, c, []) ∧
  on_undo srv c = (srv, c, []) ∧
  on_clear_canvas srv c = (srv, c, []).
Proof.
  intros H. unfold on_draw, on_cursor_move, on_undo, on_clear_canvas.
  by rewrite H.
Qed.

Lemma deliver_ignored σ sid c h :
  sys_conns σ !! sid = Some c →
  h (sys_server σ) c = (sys_server σ, c, []) →
  deliver σ sid h = (σ, []).
Proof.
  intros Hsid Hh. unfold deliver. rewrite Hsid, Hh.
  rewrite insert_id by done. by destruct σ.
Qed.

(** C6: for a connection that has not joined a room, the draw, cursor-move,
    undo and clear-canvas handlers return at once: the server's state (every
    room's log and users map, the color counter) and the connection's
    closure are what they were and nothing is emitted; so is the state of
    the whole server after the event. *)
Theorem unbound_commands_ignored
    (σ : System) (sid : string) (c : Conn) (data : JsVal) (now : Z) :
  sys_conns σ !! sid = Some c →
  currentRoom c = None →
  (on_draw (sys_server σ) c data now = (sys_server σ, c, []) ∧
   on_cursor_move (sys_server σ) c data = (sys_server σ, c, []) ∧
   on_undo (sys_server σ) c = (sys_server σ, c, []) ∧
   on_clear_canvas (sys_server σ) c = (sys_server σ, c, [])) ∧
  sys_step σ (EvDraw sid data now) = (σ, []) ∧
  sys_step σ (EvCursorMove sid data) = (σ, []) ∧
  sys_step σ (EvUndo sid) = (σ, []) ∧
  sys_step σ (EvClearCanvas sid) = (σ, []).
Proof.
  intros Hsid Hcur.
  destruct (unbound_handlers (sys_server σ) c data now Hcur)
    as (Hd & Hm & Hu & Hcl).
  split; [done|]. simpl.
  split_and!; by apply deliver_ignored with c.
Qed.

Lemma unbound_commands_ignored_witness :
  let σ := (sys_run initial_system
              [EvConnection "s1";
               EvJoinRoom "s1" {| jd_roomId := Some "roomA";
                                  jd_username := None |} "ZenMaker12" 100%Z;
               EvDraw "s1" (JObj []) 101%Z;
               EvConnection "s2"]).1 in
  sys_step σ (EvUndo "s2") = (σ, []) ∧
  sys_step σ (EvClearCanvas "s2") = (σ, []).
Proof.
  intros σ.
  destruct (unbound_commands_ignored σ "s2" (new_conn "s2") JNull 0%Z
              eq_refl eq_refl) as (_ & _ & _ & Hu & Hc).
  split; [exact Hu | exact Hc].
Defined.

End SessionClaims.

(** ** The color palette *)

Section ColorClaims.
Implicit Types (srv : Server) (c : Conn) (rid sid : string) (σ : System).

Lemma join_leave_colors srv c :
  assigned_colors (join_leave srv c).2 = [] ∧
  colorIndex (join_leave srv c).1 = colorIndex srv.
Proof.
  unfold join_leave. destruct (truthy (currentRoom c)); [|done].
  by destruct (RoomManager.getRoom _ _).
Qed.

Lemma on_join_colors srv c data gen now :
  assigned_colors (on_join srv c data gen now).2 = [next_color srv] ∧
  colorIndex (on_join srv c data gen now).1.1 = S (colorIndex srv).
Proof.
  unfold on_join.
  destruct (join_leave_colors srv c) as [Hl Hci].
  destruct (join_leave srv c) as [srv1 leaving]. simpl in Hl, Hci.
  pose proof (join_create_colorIndex srv1 (join_target data)) as Hci2.
  destruct (join_create srv1 (join_target data)) as [srv2 room].
  simpl in Hci2. unfold join_add. simpl.
  unfold assigned_colors in *. rewrite omap_app, Hl. simpl.
  unfold next_color. by rewrite Hci2, Hci.
Qed.

(** The handlers that hand out no color. *)
Lemma other_handlers_colors srv c data now :
  (assigned_colors (on_draw srv c data now).2 = [] ∧
   colorIndex (on_draw srv c data now).1.1 = colorIndex srv) ∧
  (assigned_colors (on_cursor_move srv c data).2 = [] ∧
   colorIndex (on_cursor_move srv c data).1.1 = colorIndex srv) ∧
  (assigned_colors (on_undo srv c).2 = [] ∧
   colorIndex (on_undo srv c).1.1 = colorIndex srv) ∧
  (assigned_colors (on_clear_canvas srv c).2 = [] ∧
   colorIndex (on_clear_canvas srv c).1.1 = colorIndex srv) ∧
  (assigned_colors (on_disconnect srv c).2 = [] ∧
   colorIndex (on_disconnect srv c).1.1 = colorIndex srv).
Proof.
  unfold on_draw, on_cursor_move, on_undo, on_clear_canvas, on_disconnect.
  destruct (truthy (currentRoom c)) as [cur|]; [|done].
  destruct (RoomManager.getRoom (roomManager srv) cur) as [room|]; [|done].
  by destruct (DrawingState.undo room) as [room' [op|]].
Qed.

Lemma deliver_colors σ sid h n :
  (∀ srv c, assigned_colors (h srv c).2 = palette_from (colorIndex srv) n ∧
            colorIndex (h srv c).1.1 = colorIndex srv + n) →
  ∃ m, assigned_colors (deliver σ sid h).2
         = palette_from (colorIndex (sys_server σ)) m ∧
       colorIndex (sys_server (deliver σ sid h).1)
         = colorIndex (sys_server σ) + m.
Proof.
  intros Hh. unfold deliver.
  destruct (sys_conns σ !! sid) as [c|].
  - exists n. destruct (Hh (sys_server σ) c) as [H1 H2].
    by destruct (h (sys_server σ) c) as [[srv' c'] effs].
  - exists 0. simpl. split; [done|lia].
Qed.

Lemma sys_step_colors σ ev :
  ∃ n, assigned_colors (sys_step σ ev).2
         = palette_from (colorIndex (sys_server σ)) n ∧
       colorIndex (sys_server (sys_step σ ev).1)
         = colorIndex (sys_server σ) + n.
Proof.
  destruct ev; simpl.
  - exists 0. destruct (sys_conns σ !! sid); simpl; split; done || lia.
  - apply deliver_colors with 1. intros srv c.
    destruct (on_join_colors srv c data gen now) as [-> ->].
    split; [done|lia].
  - apply deliver_colors with 0. intros srv c.
    destruct (other_handlers_colors srv c data now) as ([-> ->] & _).
    split; [done|lia].
  - apply deliver_colors with 0. intros srv c.
    destruct (other_handlers_colors srv c data 0%Z) as (_ & [-> ->] & _).
    split; [done|lia].
  - apply deliver_colors with 0. intros srv c.
    destruct (other_handlers_colors srv c JNull 0%Z)
      as (_ & _ & [-> ->] & _).
    split; [done|lia].
  - apply deliver_colors with 0. intros srv c.
    destruct (other_handlers_colors srv c JNull 0%Z)
      as (_ & _ & _ & [-> ->] & _).
    split; [done|lia].
  - exists 0. destruct (sys_conns σ !! sid) as [c|]; simpl.
    + destruct (other_handlers_colors (sys_server σ) c JNull 0%Z)
        as (_ & _ & _ & _ & [H1 H2]).
      destruct (on_disconnect (sys_server σ) c) as [[srv' c'] effs].
      simpl in *. split; [done|lia].
    + split; [done|lia].
  - exists 0. simpl. split; [done|lia].
  - exists 0. simpl. split; [done|lia].
Qed.

Lemma palette_from_app a n m :
  palette_from a n ++ palette_from (a + n) m = palette_from a (n + m).
Proof. unfold palette_from. by rewrite seq_app, fmap_app. Qed.

Lemma sys_run_colors σ evs :
  ∃ n, assigned_colors (sys_run σ evs).2
         = palette_from (colorIndex (sys_server σ)) n ∧
       colorIndex (sys_server (sys_run σ evs).1)
         = colorIndex (sys_server σ) + n.
Proof.
  revert σ. induction evs as [|ev evs IH]; intros σ.
  { exists 0. simpl. split; [done|lia]. }
  destruct (sys_run_cons σ ev evs) as [-> ->].
  destruct (sys_step_colors σ ev) as (n & Hn1 & Hn2).
  destruct (IH (sys_step σ ev).1) as (m & Hm1 & Hm2).
  exists (n + m). unfold assigned_colors in *.
  rewrite omap_app, Hn1, Hm1, Hn2, Hm2. split; [|lia].
  apply palette_from_app.
Qed.

Lemma palette_lookup k : USER_COLORS !! (k mod 12)
  = Some (nth (k mod 12) USER_COLORS "").
Proof.
  pose proof (Nat.mod_upper_bound k 12 ltac:(lia)) as Hlt.
  generalize dependent (k mod 12). intros j Hlt.
  do 12 (destruct j as [|j]; [done|]). lia.
Qed.

(** C8: whatever the events of a run and whichever rooms are joined, the
    k-th join the server processes (counting from 0; each one sends one
    init-state message, which carries the color) gets entry k mod 12 of the
    palette of 12 colors; [colorIndex] counts the joins processed so far,
    and every join uses it and adds one to it. *)
Theorem colors_round_robin
    (evs : list Event) (k : nat) (color : string)
    (srv : Server) (c : Conn) (data : JoinData) (gen : string) (now : Z) :
  assigned_colors (sys_run initial_system evs).2 !! k = Some color →
  USER_COLORS !! (k mod 12) = Some color ∧
  length USER_COLORS = 12 ∧
  colorIndex (sys_server (sys_run initial_system evs).1)
    = length (assigned_colors (sys_run initial_system evs).2) ∧
  assigned_colors (on_join srv c data gen now).2
    = [nth (colorIndex srv mod 12) USER_COLORS ""] ∧
  colorIndex (on_join srv c data gen now).1.1 = S (colorIndex srv).
Proof.
  intros Hk.
  destruct (sys_run_colors initial_system evs) as (n & Hcols & Hci).
  change (colorIndex (sys_server initial_system)) with 0 in Hcols, Hci.
  rewrite Hcols in Hk. rewrite Hcols, Hci.
  unfold palette_from in Hk |- *. rewrite length_fmap, length_seq.
  apply list_lookup_fmap_Some in Hk as (i & -> & Hi).
  apply lookup_seq in Hi as [-> _].
  change (0 + k) with k.
  split_and!; [apply palette_lookup|done|done|apply on_join_colors..].
Qed.

Lemma colors_round_robin_witness :
  let join sid room :=
    EvJoinRoom sid {| jd_roomId := Some room; jd_username := None |}
      "QuickDrawer5" 0%Z in
  let evs := [EvConnection "s1"; EvConnection "s2";
              join "s1" "roomA"; join "s2" "roomB"; EvUndo "s1";
              join "s1" "roomB"] in
  assigned_colors (sys_run initial_system evs).2 !! 2 = Some "#45B7D1" ∧
  USER_COLORS !! (2 mod 12) = Some "#45B7D1".
Proof.
  intros join evs.
  assert (assigned_colors (sys_run initial_system evs).2 !! 2
          = Some "#45B7D1") as H by reflexivity.
  split; [exact H|].
  exact (proj1 (colors_round_robin evs 2 "#45B7D1" initial_server
                  (new_conn "s1")
                  {| jd_roomId := None; jd_username := None |}
                  "HappyCrafter1" 0%Z H)).
Defined.

End ColorClaims.

(** * Further properties *)

(** ** More on [JsMap] *)

Section JsMapMoreFacts.
Context {V : Type}.
Implicit Types (m : list (string * V)) (k : string) (v : V).

Lemma JsMap_set_absent k v m :
  JsMap.get k m = None → JsMap.set k v m = m ++ [(k, v)].
Proof.
  induction m as [|[k' v'] m IH]; simpl; [done|].
  destruct (decide (k' = k)); [done|]. intros H. by rewrite IH.
Qed.

Lemma JsMap_keys_set k v m :
  (JsMap.set k v m).*1 = if JsMap.has k m then m.*1 else m.*1 ++ [k].
Proof.
  destruct (JsMap.has k m) eqn:Hhas.
  - apply JsMap_keys_set_present. by apply JsMap_has_get.
  - apply JsMap_has_false in Hhas. rewrite JsMap_set_absent by done.
    by rewrite fmap_app.
Qed.

Lemma JsMap_delete_absent k m :
  JsMap.get k m = None → JsMap.delete k m = m.
Proof.
  induction m as [|[k' v'] m IH]; simpl; [done|].
  destruct (decide (k' = k)); [done|]. intros H. by rewrite IH.
Qed.

Lemma JsMap_size_delete_le k m :
  JsMap.size (JsMap.delete k m) ≤ JsMap.size m.
Proof.
  unfold JsMap.size. induction m as [|[k' v'] m IH]; simpl; [done|].
  destruct (decide (k' = k)); simpl; lia.
Qed.

Lemma JsMap_size_delete_lt k m :
  JsMap.has k m = true → JsMap.size (JsMap.delete k m) < JsMap.size m.
Proof.
  unfold JsMap.has, JsMap.size.
  induction m as [|[k' v'] m IH]; simpl; [done|].
  destruct (decide (k' = k)); simpl.
  - intros _. pose proof (JsMap_size_delete_le k m). unfold JsMap.size in *.
    lia.
  - intros H. apply IH in H. lia.
Qed.

Lemma JsMap_delete_filter k m :
  JsMap.delete k m = filter (λ e, e.1 ≠ k) m.
Proof.
  induction m as [|[k' v'] m IH]; [done|].
  rewrite filter_cons. cbn [JsMap.delete fst].
  destruct (decide (k' = k)) as [->|Hne].
  - by rewrite decide_False by (by intros ?).
  - rewrite decide_True by done. by rewrite IH.
Qed.

Lemma JsMap_foldl_delete_filter (ks : list string) m :
  foldl (λ r rid, JsMap.delete rid r) m ks = filter (λ e, e.1 ∉ ks) m.
Proof.
  revert m. induction ks as [|k ks IH]; intros m; simpl.
  - induction m as [|e m IHm]; [done|].
    rewrite filter_cons_True by apply not_elem_of_nil. by rewrite <- IHm.
  - rewrite IH, JsMap_delete_filter, list_filter_filter.
    apply list_filter_iff. intros e. rewrite not_elem_of_cons. tauto.
Qed.

(** With distinct keys, two entries under one key are one entry. *)
Lemma JsMap_entry_unique (e e' : string * V) m :
  NoDup m.*1 → e ∈ m → e' ∈ m → e.1 = e'.1 → e = e'.
Proof.
  destruct e as [k v], e' as [k' v']. simpl. intros Hnd He He' <-.
  pose proof (JsMap_get_entry _ _ _ Hnd He) as H1.
  pose proof (JsMap_get_entry _ _ _ Hnd He') as H2.
  congruence.
Qed.

Lemma JsMap_get_Some_entry k v m : JsMap.get k m = Some v → (k, v) ∈ m.
Proof.
  induction m as [|[k' v'] m IH]; simpl; [done|].
  destruct (decide (k' = k)) as [->|Hne].
  - intros [= ->]. apply list_elem_of_here.
  - intros H. apply list_elem_of_further. by apply IH.
Qed.

Lemma JsMap_get_filter (P : string * V → Prop) `{!∀ e, Decision (P e)}
    k m :
  NoDup m.*1 →
  JsMap.get k (filter P m)
  = match JsMap.get k m with
    | Some v => if decide (P (k, v)) then Some v else None
    | None => None
    end.
Proof.
  induction m as [|[k' v'] m IH]; [done|].
  rewrite fmap_cons, NoDup_cons. intros [Hnotin Hnd].
  rewrite filter_cons. cbn [JsMap.get fst].
  destruct (decide (k' = k)) as [->|Hne].
  - destruct (decide (P (k, v'))); cbn [JsMap.get].
    + by rewrite decide_True.
    + assert (JsMap.get k m = None) as Hnone.
      { destruct (JsMap.get k m) eqn:E; [|done].
        exfalso. apply Hnotin. apply JsMap_keys_get. simpl.
        rewrite E. by eexists. }
      rewrite IH by done. by rewrite Hnone.
  - destruct (decide (P (k', v'))); cbn [JsMap.get].
    + rewrite decide_False by done. by apply IH.
    + by apply IH.
Qed.

Lemma filter_ext_in {A} (P Q : A → Prop)
    `{!∀ x, Decision (P x), !∀ x, Decision (Q x)} (l : list A) :
  (∀ x, x ∈ l → (P x ↔ Q x)) → filter P l = filter Q l.
Proof.
  induction l as [|a l IH]; intros Hext; [done|].
  rewrite !filter_cons.
  assert (P a ↔ Q a) as Ha by (apply Hext, list_elem_of_here).
  assert (filter P l = filter Q l) as ->.
  { apply IH. intros x Hx. by apply Hext, list_elem_of_further. }
  destruct (decide (P a)), (decide (Q a)); tauto || done.
Qed.

Lemma filter_length_split {A} (P : A → Prop) `{!∀ x, Decision (P x)}
    (l : list A) :
  length (filter P l) + length (filter (λ x, ¬ P x) l) = length l.
Proof.
  induction l as [|a l IH]; [done|].
  rewrite !filter_cons. destruct (decide (P a)).
  - rewrite decide_False by tauto. simpl. lia.
  - rewrite decide_True by done. simpl. lia.
Qed.

Lemma filter_none {A} (P : A → Prop) `{!∀ x, Decision (P x)} (l : list A) :
  (∀ x, ¬ P x) → filter P l = [].
Proof.
  intros HP. induction l as [|a l IH]; [done|].
  by rewrite filter_cons_False.
Qed.

End JsMapMoreFacts.

(** ** The room state: users and the undo stack *)

Section RoomStateExtras.
Import DrawingState.
Implicit Types (s : DrawingState.t).

(** X1: addUser followed by getUser is a round trip: the user just added is
    found, with the name and color of the userInfo, the join time, and as
    userId the key it was added under (whatever userId the userInfo
    carries); every other user, the log, the id counter and the room id are
    as before. *)
Theorem addUser_getUser s (uid uid' : string) (info : UserInfo) (now : Z) :
  getUser (addUser s uid info now) uid'
  = (if decide (uid = uid')
     then Some {| u_userId := uid; u_username := ui_username info;
                  u_color := ui_color info; u_joinedAt := now |}
     else getUser s uid') ∧
  operations (addUser s uid info now) = operations s ∧
  currentOperationId (addUser s uid info now) = currentOperationId s ∧
  roomId (addUser s uid info now) = roomId s.
Proof.
  split_and!; try done. unfold getUser, addUser. simpl.
  destruct (decide (uid = uid')) as [<-|Hne].
  - apply JsMap_get_set_eq.
  - by apply JsMap_get_set_ne.
Qed.

(** X2: addUser is an upsert.  For a user id already in the room the number
    of users and the order of the users list stay as they are (the record
    is replaced in place); a new user id is added at the end of the list and
    the number of users grows by one. *)
Theorem addUser_upsert s (uid : string) (info : UserInfo) (now : Z) :
  (users (addUser s uid info now)).*1
  = (if JsMap.has uid (users s) then (users s).*1
     else (users s).*1 ++ [uid]) ∧
  sum_userCount (getState (addUser s uid info now))
  = (if JsMap.has uid (users s) then sum_userCount (getState s)
     else S (sum_userCount (getState s))) ∧
  length (getUsers (addUser s uid info now))
  = sum_userCount (getState (addUser s uid info now)).
Proof.
  assert ((users (addUser s uid info now)).*1
          = (if JsMap.has uid (users s) then (users s).*1
             else (users s).*1 ++ [uid])) as Hkeys.
  { unfold addUser. simpl. apply JsMap_keys_set. }
  split_and!; [done| |].
  - unfold getState. cbn [sum_userCount]. unfold JsMap.size.
    rewrite <- (length_fmap fst (users (addUser s uid info now))), Hkeys.
    rewrite <- (length_fmap fst (users s)).
    destruct (JsMap.has uid (users s)); [done|].
    rewrite length_app. simpl. lia.
  - unfold getUsers, getState, JsMap.values, JsMap.size. simpl.
    by rewrite length_map.
Qed.

(** X3: removeUser makes getUser miss the user and leaves every other user,
    the log, the id counter and the room id alone; when the user is in the
    room the number of users drops, and when it is not the room is exactly
    as before. *)
Theorem removeUser_getUser s (uid uid' : string) :
  getUser (removeUser s uid) uid'
  = (if decide (uid = uid') then None else getUser s uid') ∧
  operations (removeUser s uid) = operations s ∧
  currentOperationId (removeUser s uid) = currentOperationId s ∧
  roomId (removeUser s uid) = roomId s ∧
  (if JsMap.has uid (users s)
   then JsMap.size (users (removeUser s uid)) < JsMap.size (users s)
   else removeUser s uid = s).
Proof.
  split_and!; try done.
  - unfold getUser, removeUser. simpl.
    destruct (decide (uid = uid')) as [<-|Hne].
    + apply JsMap_get_delete_eq.
    + by apply JsMap_get_delete_ne.
  - destruct (JsMap.has uid (users s)) eqn:Hhas.
    + by apply JsMap_size_delete_lt.
    + apply JsMap_has_false in Hhas. unfold removeUser.
      rewrite JsMap_delete_absent by done. by destruct s.
Qed.

Lemma addOperations_frame s (ps : list (PartialOp * Z)) :
  roomId (addOperations s ps).1 = roomId s ∧
  users (addOperations s ps).1 = users s.
Proof.
  revert s. induction ps as [|[p now] ps IH]; intros s; [done|].
  cbn [addOperations].
  destruct (addOperation s p now) as [s1 op] eqn:Hadd.
  destruct (IH s1) as [Hr Hu].
  destruct (addOperations s1 ps) as [s2 ops]. simpl in *.
  unfold addOperation in Hadd. injection Hadd as <- <-. done.
Qed.

Lemma undo_times_log s (l ops : list Operation) :
  operations s = l ++ ops →
  undo_times s (length ops)
  = ({| roomId := roomId s; operations := l;
        currentOperationId := currentOperationId s; users := users s |},
     reverse ops).
Proof.
  revert s. induction ops as [|x ops IH] using rev_ind; intros s Hops.
  - simpl. rewrite app_nil_r in Hops. rewrite <- Hops. by destruct s.
  - rewrite length_app. simpl. rewrite Nat.add_1_r. cbn [undo_times].
    rewrite app_assoc in Hops. rewrite (undo_snoc s _ _ Hops).
    rewrite (IH {| roomId := roomId s; operations := l ++ ops;
                   currentOperationId := currentOperationId s;
                   users := users s |} eq_refl).
    simpl. by rewrite reverse_snoc.
Qed.

(** X4: the log is a stack.  After n appends, n undos return the appended
    operations in reverse order (last in, first out) and leave the log, the
    users and the room id as they were before the appends; the id counter
    alone keeps the n ids it has handed out. *)
Theorem undo_times_after_appends s (ps : list (PartialOp * Z)) :
  undo_times (addOperations s ps).1 (length ps)
  = ({| roomId := roomId s; operations := operations s;
        currentOperationId := currentOperationId s + length ps;
        users := users s |},
     reverse (addOperations s ps).2).
Proof.
  destruct (addOperations_spec s ps) as (_ & Hlog & Hctr & Hlen).
  destruct (addOperations_frame s ps) as [Hr Hu].
  rewrite <- Hlen. rewrite (undo_times_log _ _ _ Hlog).
  by rewrite Hr, Hu, Hctr, Hlen.
Qed.

End RoomStateExtras.

(** ** The room store: creation and the sweep *)

Section RoomStoreExtras.
Import RoomManager.
Implicit Types (m : RoomManager.t).

(** X5: getOrCreateRoom returns the room the store then holds under the
    key, leaves every other key alone and is idempotent.  An existing room
    is returned as it is, with the store unchanged; a missing one is created
    empty (no operations, id counter 0, no users, the key as its roomId) and
    goes last in the store. *)
Theorem getOrCreateRoom_spec m (rid r : string) :
  getRoom (getOrCreateRoom m rid).1 r
  = (if decide (rid = r) then Some (getOrCreateRoom m rid).2
     else getRoom m r) ∧
  getOrCreateRoom (getOrCreateRoom m rid).1 rid = getOrCreateRoom m rid ∧
  match getRoom m rid with
  | Some room => getOrCreateRoom m rid = (m, room)
  | None =>
      getOrCreateRoom m rid
      = ({| rooms := rooms m ++ [(rid, DrawingState.new rid)] |},
         DrawingState.new rid)
  end.
Proof.
  unfold getOrCreateRoom, getRoom.
  destruct (JsMap.get rid (rooms m)) as [room|] eqn:Hget; simpl.
  - rewrite Hget. split_and!; try done.
    destruct (decide (rid = r)) as [<-|]; done.
  - rewrite JsMap_get_set_eq. split_and!; try done.
    + destruct (decide (rid = r)) as [<-|Hne].
      * apply JsMap_get_set_eq.
      * by apply JsMap_get_set_ne.
    + by rewrite JsMap_set_absent.
Qed.

Lemma cleanup_rooms m :
  NoDup (rooms m).*1 →
  rooms (cleanupEmptyRooms m).1
  = filter (λ e, JsMap.size (DrawingState.users e.2) ≠ 0) (rooms m).
Proof.
  intros Hnd. unfold cleanupEmptyRooms, JsMap.entries. simpl.
  rewrite JsMap_foldl_delete_filter.
  apply filter_ext_in. intros e He. split.
  - intros Hnot Hz. apply Hnot.
    apply list_elem_of_fmap. exists e. split; [done|].
    by apply list_elem_of_filter.
  - intros Hnz (e' & Heq & [Hz He']%list_elem_of_filter)%list_elem_of_fmap.
    assert (e = e') as -> by by apply (JsMap_entry_unique e e' (rooms m)).
    done.
Qed.

(** X6: the sweep.  On a store with distinct keys, cleanupEmptyRooms keeps
    exactly the rooms that have users, each as it was and in the same
    order, and returns the number of rooms it removed: the rooms without
    users. *)
Theorem cleanupEmptyRooms_spec m (r : string) :
  NoDup (rooms m).*1 →
  rooms (cleanupEmptyRooms m).1
  = filter (λ e, JsMap.size (DrawingState.users e.2) ≠ 0) (rooms m) ∧
  (cleanupEmptyRooms m).2
  = length (filter (λ e, JsMap.size (DrawingState.users e.2) = 0)
              (rooms m)) ∧
  JsMap.size (rooms (cleanupEmptyRooms m).1) + (cleanupEmptyRooms m).2
  = JsMap.size (rooms m) ∧
  getRoom (cleanupEmptyRooms m).1 r
  = match getRoom m r with
    | Some room =>
        if decide (JsMap.size (DrawingState.users room) = 0) then None
        else Some room
    | None => None
    end.
Proof.
  intros Hnd. pose proof (cleanup_rooms m Hnd) as Hrooms.
  assert ((cleanupEmptyRooms m).2
          = length (filter (λ e, JsMap.size (DrawingState.users e.2) = 0)
                      (rooms m))) as Hcount.
  { unfold cleanupEmptyRooms, JsMap.entries. simpl. by rewrite length_fmap. }
  split_and!; [done|done| |].
  - change (JsMap.size (rooms (cleanupEmptyRooms m).1))
      with (length (rooms (cleanupEmptyRooms m).1)).
    change (JsMap.size (rooms m)) with (length (rooms m)).
    rewrite Hrooms, Hcount, Nat.add_comm.
    apply (filter_length_split
             (λ e : string * DrawingState.t,
                JsMap.size (DrawingState.users e.2) = 0)).
  - unfold getRoom. rewrite Hrooms.
    etrans; [by apply JsMap_get_filter|].
    destruct (JsMap.get r (rooms m)) as [room|]; [|done]. simpl.
    destruct (decide (JsMap.size (DrawingState.users room) = 0)).
    + by rewrite decide_False by tauto.
    + by rewrite decide_True.
Qed.

Lemma cleanupEmptyRooms_spec_witness :
  let m := {| rooms :=
                [("lobby", DrawingState.new "lobby");
                 ("studio",
                  DrawingState.addUser (DrawingState.new "studio") "s1"
                    {| ui_userId := "s1"; ui_username := "Ann";
                       ui_color := "#FF6B6B" |} 7%Z)] |} in
  (cleanupEmptyRooms m).2 = 1 ∧
  getRoom (cleanupEmptyRooms m).1 "lobby" = None.
Proof.
  intros m.
  assert (NoDup (rooms m).*1) as Hnd.
  { apply (bool_decide_unpack (NoDup (rooms m).*1)). vm_compute. exact I. }
  destruct (cleanupEmptyRooms_spec m "lobby" Hnd) as (_ & Hc & _ & Hg).
  split; [exact Hc | exact Hg].
Defined.

(** X7: the sweep is idempotent: right after a sweep (of a store with
    distinct keys) a second sweep removes nothing, returns 0 and leaves the
    store as it is. *)
Theorem cleanupEmptyRooms_idempotent m :
  NoDup (rooms m).*1 →
  cleanupEmptyRooms (cleanupEmptyRooms m).1 = ((cleanupEmptyRooms m).1, 0).
Proof.
  intros Hnd. pose proof (cleanup_rooms m Hnd) as Hrooms.
  set (m1 := (cleanupEmptyRooms m).1) in *.
  assert (filter (λ e : string * DrawingState.t,
                    JsMap.size (DrawingState.users e.2) = 0)
            (JsMap.entries (rooms m1)) = []) as Hnil.
  { unfold JsMap.entries. rewrite Hrooms.
    etrans; [apply list_filter_filter|].
    apply filter_none. by intros e [? ?]. }
  clearbody m1. unfold cleanupEmptyRooms. rewrite Hnil. simpl.
  by destruct m1.
Qed.

Lemma cleanupEmptyRooms_idempotent_witness :
  let m := {| rooms := [("lobby", DrawingState.new "lobby");
                        ("attic", DrawingState.new "attic")] |} in
  cleanupEmptyRooms (cleanupEmptyRooms m).1 = ({| rooms := [] |}, 0).
Proof.
  intros m.
  assert (NoDup (rooms m).*1) as Hnd.
  { apply (bool_decide_unpack (NoDup (rooms m).*1)). vm_compute. exact I. }
  exact (cleanupEmptyRooms_idempotent m Hnd).
Defined.

End RoomStoreExtras.

(** ** Well-formed rooms in every state of the server *)

Section RoomsOkFacts.
Implicit Types (srv : Server) (c : Conn) (rid sid : string) (σ : System).

Lemma getRoom_mutated (rm : RoomManager.t) rid room r :
  RoomManager.getRoom (RoomManager.mutated rm rid room) r
  = if decide (rid = r) then Some room else RoomManager.getRoom rm r.
Proof.
  unfold RoomManager.getRoom, RoomManager.mutated. simpl.
  destruct (decide (rid = r)) as [<-|Hne].
  - apply JsMap_get_set_eq.
  - by apply JsMap_get_set_ne.
Qed.

Lemma room_ok_new rid : room_ok rid (DrawingState.new rid).
Proof.
  split; simpl; [done|apply log_inv_new|constructor|constructor|done].
Qed.

Lemma room_ok_addOperation rid room p now :
  p_type p = "draw" → is_Some (p_username p) →
  room_ok rid room → room_ok rid (DrawingState.addOperation room p now).1.
Proof.
  intros Hty Hname [Hr Hlog Hops Hkeys Hus]. split; simpl; try done.
  - by apply log_inv_addOperation.
  - apply Forall_app. split; [done|]. by repeat constructor.
Qed.

Lemma room_ok_undo rid room :
  room_ok rid room → room_ok rid (DrawingState.undo room).1.
Proof.
  intros [Hr Hlog Hops Hkeys Hus].
  pose proof (log_inv_undo room Hlog) as Hlog'.
  destruct (decide (DrawingState.operations room = [])) as [Hnil|Hne].
  - rewrite undo_empty by done. by split.
  - destruct (exists_last Hne) as (l & o & Hl).
    rewrite (undo_snoc _ _ _ Hl) in Hlog' |- *. split; simpl; try done.
    rewrite Hl in Hops. by apply Forall_app in Hops as [? _].
Qed.

Lemma room_ok_clear rid room :
  room_ok rid room → room_ok rid (DrawingState.clear room).
Proof.
  intros [Hr Hlog Hops Hkeys Hus]. split; simpl; try done.
  apply log_inv_clear.
Qed.

Lemma room_ok_addUser rid room uid info now :
  room_ok rid room → room_ok rid (DrawingState.addUser room uid info now).
Proof.
  intros [Hr Hlog Hops Hkeys Hus]. split; simpl; try done.
  - by apply JsMap_NoDup_set.
  - intros uid' u. destruct (decide (uid = uid')) as [<-|Hne].
    + rewrite JsMap_get_set_eq. by intros [= <-].
    + rewrite JsMap_get_set_ne by done. apply Hus.
Qed.

Lemma room_ok_removeUser rid room uid :
  room_ok rid room → room_ok rid (DrawingState.removeUser room uid).
Proof.
  intros [Hr Hlog Hops Hkeys Hus]. split; simpl; try done.
  - by apply JsMap_NoDup_delete.
  - intros uid' u. destruct (decide (uid = uid')) as [<-|Hne].
    + by rewrite JsMap_get_delete_eq.
    + rewrite JsMap_get_delete_ne by done. apply Hus.
Qed.

Lemma rooms_ok_mutated srv ci rid room' :
  rooms_ok srv → room_ok rid room' →
  rooms_ok {| roomManager := RoomManager.mutated (roomManager srv) rid room';
              colorIndex := ci |}.
Proof.
  intros Hok Hroom r room. simpl. rewrite getRoom_mutated.
  destruct (decide (rid = r)) as [<-|Hne].
  - by intros [= <-].
  - apply Hok.
Qed.

Lemma join_leave_rooms_ok srv c : rooms_ok srv → rooms_ok (join_leave srv c).1.
Proof.
  intros Hok. unfold join_leave.
  destruct (truthy (currentRoom c)) as [cur|]; [|done].
  destruct (RoomManager.getRoom (roomManager srv) cur) as [old|] eqn:Hget;
    [|done].
  simpl. apply rooms_ok_mutated; [done|].
  by apply room_ok_removeUser, Hok.
Qed.

Lemma join_create_rooms_ok srv rid :
  rooms_ok srv → rooms_ok (join_create srv rid).1.
Proof.
  intros Hok. unfold join_create, RoomManager.getOrCreateRoom.
  destruct (JsMap.get rid (RoomManager.rooms (roomManager srv)))
    as [room|] eqn:Hget; simpl.
  - by destruct srv as [[?] ?].
  - intros r room. unfold RoomManager.getRoom. simpl.
    destruct (decide (rid = r)) as [<-|Hne].
    + rewrite JsMap_get_set_eq. intros [= <-]. apply room_ok_new.
    + rewrite JsMap_get_set_ne by done. apply Hok.
Qed.

Lemma on_join_rooms_ok srv c data gen now :
  rooms_ok srv → rooms_ok (on_join srv c data gen now).1.1.
Proof.
  intros Hok. rewrite on_join_server. unfold join_add. simpl.
  pose proof (join_create_rooms_ok _ (join_target data)
                (join_leave_rooms_ok srv c Hok)) as Hok2.
  apply rooms_ok_mutated; [done|].
  apply room_ok_addUser, Hok2, join_create_room.
Qed.

Lemma on_draw_rooms_ok srv c data now :
  conn_ok (socket_id c) c →
  rooms_ok srv → rooms_ok (on_draw srv c data now).1.1.
Proof.
  intros Hc Hok. unfold on_draw.
  destruct (truthy (currentRoom c)) as [cur|] eqn:Hcur; [|done].
  destruct (RoomManager.getRoom (roomManager srv) cur) as [room|] eqn:Hget;
    [|done].
  assert (room_ok cur
            (DrawingState.addOperation room
               {| p_type := "draw"; p_data := data;
                  p_userId := socket_id c;
                  p_username := ui_username <$> userInfo c |} now).1)
    as Hroom.
  { apply room_ok_addOperation; [done| |by apply Hok].
    simpl. unfold conn_ok in Hc.
    destruct (currentRoom c); [|done].
    destruct Hc as (info & -> & _). by eexists. }
  simpl. apply rooms_ok_mutated; [done|]. exact Hroom.
Qed.

Lemma on_undo_rooms_ok srv c : rooms_ok srv → rooms_ok (on_undo srv c).1.1.
Proof.
  intros Hok. unfold on_undo.
  destruct (truthy (currentRoom c)) as [cur|]; [|done].
  destruct (RoomManager.getRoom (roomManager srv) cur) as [room|] eqn:Hget;
    [|done].
  pose proof (room_ok_undo cur room (Hok _ _ Hget)) as Hroom.
  destruct (DrawingState.undo room) as [room' [op|]]; [|done].
  simpl. by apply rooms_ok_mutated.
Qed.

Lemma on_clear_canvas_rooms_ok srv c :
  rooms_ok srv → rooms_ok (on_clear_canvas srv c).1.1.
Proof.
  intros Hok. unfold on_clear_canvas.
  destruct (truthy (currentRoom c)) as [cur|]; [|done].
  destruct (RoomManager.getRoom (roomManager srv) cur) as [room|] eqn:Hget;
    [|done].
  simpl. apply rooms_ok_mutated; [done|]. by apply room_ok_clear, Hok.
Qed.

Lemma on_disconnect_rooms_ok srv c :
  rooms_ok srv → rooms_ok (on_disconnect srv c).1.1.
Proof.
  intros Hok. unfold on_disconnect.
  destruct (truthy (currentRoom c)) as [cur|]; [|done].
  destruct (RoomManager.getRoom (roomManager srv) cur) as [room|] eqn:Hget;
    [|done].
  simpl. apply rooms_ok_mutated; [done|]. by apply room_ok_removeUser, Hok.
Qed.

Lemma removeRoom_rooms_ok srv rid :
  rooms_ok srv →
  rooms_ok {| roomManager := (RoomManager.removeRoom (roomManager srv) rid).1;
              colorIndex := colorIndex srv |}.
Proof.
  intros Hok r room. unfold RoomManager.removeRoom.
  destruct (JsMap.get rid (RoomManager.rooms (roomManager srv)))
    as [room0|] eqn:Hget; [|apply Hok].
  destruct (decide _); [|apply Hok].
  unfold RoomManager.getRoom. simpl.
  destruct (decide (rid = r)) as [<-|Hne].
  - by rewrite JsMap_get_delete_eq.
  - rewrite JsMap_get_delete_ne by done. apply Hok.
Qed.

Lemma cleanupEmptyRooms_rooms_ok srv :
  rooms_ok srv →
  rooms_ok
    {| roomManager := (RoomManager.cleanupEmptyRooms (roomManager srv)).1;
       colorIndex := colorIndex srv |}.
Proof.
  intros Hok r room.
  unfold RoomManager.getRoom, RoomManager.cleanupEmptyRooms. simpl.
  intros H%get_foldl_delete. by apply Hok.
Qed.

Lemma sys_inv_ext_initial : sys_inv_ext initial_system.
Proof.
  split.
  - intros rid room H. done.
  - intros sid c H. simpl in H. by rewrite lookup_empty in H.
Qed.

Lemma sys_inv_ext_deliver σ sid h :
  sys_inv σ → sys_inv_ext σ →
  (∀ c, sys_conns σ !! sid = Some c →
        rooms_ok (h (sys_server σ) c).1.1 ∧
        conn_ok sid (h (sys_server σ) c).1.2) →
  sys_inv_ext (deliver σ sid h).1.
Proof.
  intros Hinv [Hrooms Hconns] Hh. unfold deliver.
  destruct (sys_conns σ !! sid) as [c|] eqn:Hsid; [|done].
  destruct (Hh c eq_refl) as [Hr Hc].
  destruct (h (sys_server σ) c) as [[srv' c'] effs]. simpl in *.
  split; simpl; [done|].
  intros sid0 c0. rewrite lookup_insert.
  destruct (decide (sid = sid0)) as [<-|Hne]; [|apply Hconns].
  by intros [= <-].
Qed.

Lemma sys_inv_ext_step σ ev :
  sys_inv σ → sys_inv_ext σ → sys_inv_ext (sys_step σ ev).1.
Proof.
  intros Hinv Hext. destruct ev; cbn [sys_step].
  - (* connection *)
    destruct Hext as [Hrooms Hconns].
    destruct (sys_conns σ !! sid) as [c|] eqn:Hsid; [done|].
    split; simpl; [done|].
    intros sid0 c0. rewrite lookup_insert.
    destruct (decide (sid = sid0)) as [<-|Hne]; [|apply Hconns].
    by intros [= <-].
  - (* join-room *)
    apply sys_inv_ext_deliver; [done|done|]. intros c Hc. split.
    + apply on_join_rooms_ok, Hext.
    + destruct (inv_conn σ Hinv _ _ Hc) as [Hid _].
      unfold on_join.
      destruct (join_leave (sys_server σ) c) as [srv1 leaving].
      destruct (join_create srv1 (join_target data)) as [srv2 room].
      unfold join_add, conn_ok. simpl. eexists. split; [done|]. done.
  - (* draw *)
    apply sys_inv_ext_deliver; [done|done|]. intros c Hc.
    destruct (inv_conn σ Hinv _ _ Hc) as [Hid _].
    pose proof (ext_conns σ Hext _ _ Hc) as Hok.
    split.
    + apply on_draw_rooms_ok; [by rewrite Hid | apply Hext].
    + destruct (on_draw_quiet data now (sys_server σ) c) as [-> _]. done.
  - (* cursor-move *)
    apply sys_inv_ext_deliver; [done|done|]. intros c Hc.
    pose proof (ext_conns σ Hext _ _ Hc) as Hok.
    unfold on_cursor_move.
    destruct (truthy (currentRoom c)); simpl; split; done || apply Hext.
  - (* undo *)
    apply sys_inv_ext_deliver; [done|done|]. intros c Hc.
    pose proof (ext_conns σ Hext _ _ Hc) as Hok.
    split.
    + apply on_undo_rooms_ok, Hext.
    + destruct (on_undo_quiet (sys_server σ) c) as [-> _]. done.
  - (* clear-canvas *)
    apply sys_inv_ext_deliver; [done|done|]. intros c Hc.
    pose proof (ext_conns σ Hext _ _ Hc) as Hok.
    split.
    + apply on_clear_canvas_rooms_ok, Hext.
    + destruct (on_clear_canvas_quiet (sys_server σ) c) as [-> _]. done.
  - (* disconnect *)
    destruct Hext as [Hrooms Hconns].
    destruct (sys_conns σ !! sid) as [c|] eqn:Hsid; [|done].
    pose proof (on_disconnect_rooms_ok (sys_server σ) c Hrooms) as Hr.
    destruct (on_disconnect (sys_server σ) c) as [[srv' c'] effs].
    simpl in *. split; simpl; [done|].
    intros sid0 c0 [_ H]%lookup_delete_Some. by apply Hconns.
  - (* deferred removeRoom *)
    destruct Hext as [Hrooms Hconns].
    split; cbn [sys_server sys_conns fst]; [|done].
    by apply removeRoom_rooms_ok.
  - (* periodic cleanup *)
    destruct Hext as [Hrooms Hconns].
    split; cbn [sys_server sys_conns fst]; [|done].
    by apply cleanupEmptyRooms_rooms_ok.
Qed.

Lemma sys_inv_ext_run σ evs :
  sys_inv σ → sys_inv_ext σ → sys_inv_ext (sys_run σ evs).1.
Proof.
  revert σ. induction evs as [|ev evs IH]; intros σ Hinv Hext; [done|].
  destruct (sys_run_cons σ ev evs) as [-> _].
  apply IH; [by apply sys_inv_step | by apply sys_inv_ext_step].
Qed.

(** Both invariants hold in every state the server reaches. *)
Lemma reachable_inv evs :
  sys_inv (sys_run initial_system evs).1 ∧
  sys_inv_ext (sys_run initial_system evs).1.
Proof.
  split.
  - apply sys_inv_run, sys_inv_initial.
  - apply sys_inv_ext_run; [apply sys_inv_initial|apply sys_inv_ext_initial].
Qed.

End RoomsOkFacts.

(** ** What every reachable state of the server satisfies *)

Section ReachableExtras.
Implicit Types (srv : Server) (c : Conn) (rid sid : string) (σ : System).

Lemma bound_room σ sid cur :
  sys_inv σ → bound_to σ sid cur →
  ∃ c room,
    sys_conns σ !! sid = Some c ∧ socket_id c = sid ∧
    currentRoom c = Some cur ∧ truthy (currentRoom c) = Some cur ∧
    RoomManager.getRoom (roomManager (sys_server σ)) cur = Some room ∧
    JsMap.has sid (DrawingState.users room) = true.
Proof.
  intros Hinv Hb. pose proof (inv_bound σ Hinv _ _ Hb) as Hmem.
  destruct Hb as (c & Hc & Hcur).
  destruct (inv_conn σ Hinv _ _ Hc) as [Hid Htr].
  unfold is_member in Hmem.
  destruct (RoomManager.getRoom (roomManager (sys_server σ)) cur)
    as [room|] eqn:Hget; [|done].
  exists c, room. split_and!; try done. congruence.
Qed.

Lemma user_ids_keys (room : DrawingState.t) rid :
  room_ok rid room →
  u_userId <$> DrawingState.getUsers room = (DrawingState.users room).*1.
Proof.
  intros [_ _ _ Hkeys Hus]. unfold DrawingState.getUsers, JsMap.values.
  change (map snd (DrawingState.users room))
    with ((DrawingState.users room).*2).
  rewrite <- list_fmap_compose.
  apply list_fmap_ext. intros i [k u] Hi. simpl.
  apply Hus, JsMap_get_entry; [done|].
  by apply list_elem_of_lookup_2 in Hi.
Qed.



(** X9: in every state the server reaches, getAllRooms reports every room
    of the store once, in the store's order and under the key the room is
    stored under. *)
Theorem getAllRooms_lists_each_room_once (evs : list Event) :
  let rm := roomManager (sys_server (sys_run initial_system evs).1) in
  DrawingState.sum_roomId <$> RoomManager.getAllRooms rm
    = (RoomManager.rooms rm).*1 ∧
  NoDup (DrawingState.sum_roomId <$> RoomManager.getAllRooms rm) ∧
  length (RoomManager.getAllRooms rm) = JsMap.size (RoomManager.rooms rm).
Proof.
  intros rm. destruct (reachable_inv evs) as [[Hkeys _ _ _] [Hrooms _]].
  fold rm in Hkeys, Hrooms. unfold keys_ok in Hkeys.
  assert (DrawingState.sum_roomId <$> RoomManager.getAllRooms rm
          = (RoomManager.rooms rm).*1) as Heq.
  { unfold RoomManager.getAllRooms, JsMap.entries.
    rewrite <- list_fmap_compose.
    apply list_fmap_ext. intros i [k room] Hi. simpl.
    apply list_elem_of_lookup_2 in Hi.
    apply (JsMap_get_entry _ _ _ Hkeys) in Hi.
    by destruct (Hrooms k room Hi). }
  split_and!; [done|by rewrite Heq|].
  unfold RoomManager.getAllRooms, JsMap.entries, JsMap.size.
  by rewrite length_fmap.
Qed.

(** X10: in every state the server reaches, the users list of a room names
    every connection bound to the room, each once and under its socket id,
    and nobody else. *)
Theorem users_list_is_bound_connections (evs : list Event) (rid sid : string)
    (room : DrawingState.t) :
  let σ := (sys_run initial_system evs).1 in
  RoomManager.getRoom (roomManager (sys_server σ)) rid = Some room →
  NoDup (u_userId <$> DrawingState.getUsers room) ∧
  (sid ∈ u_userId <$> DrawingState.getUsers room ↔ bound_to σ sid rid).
Proof.
  intros σ Hget. destruct (reachable_inv evs) as [Hinv [Hrooms _]].
  fold σ in Hinv, Hrooms.
  pose proof (Hrooms _ _ Hget) as Hroom.
  rewrite (user_ids_keys room rid Hroom).
  split; [by destruct Hroom|].
  rewrite JsMap_keys_get, <- JsMap_has_get.
  rewrite <- (is_member_room _ _ _ sid Hget).
  split; [apply (inv_member σ Hinv) | apply (inv_bound σ Hinv)].
Qed.

Lemma users_list_is_bound_connections_witness :
  let join sid name :=
    EvJoinRoom sid {| jd_roomId := Some "studio";
                      jd_username := Some name |} "unused" 0%Z in
  let evs := [EvConnection "s1"; EvConnection "s2"; EvConnection "s3";
              join "s1" "Ann"; join "s2" "Bob"; join "s3" "Cy";
              EvDisconnect "s2"] in
  ∃ room,
    RoomManager.getRoom
      (roomManager (sys_server (sys_run initial_system evs).1)) "studio"
      = Some room ∧
    u_userId <$> DrawingState.getUsers room = ["s1"; "s3"] ∧
    NoDup (u_userId <$> DrawingState.getUsers room).
Proof.
  intros join evs. eexists. split; [reflexivity|]. split; [reflexivity|].
  exact (proj1 (users_list_is_bound_connections evs "studio" "s1" _
                  eq_refl)).
Defined.

(** X11: in every state the server reaches, a connection is in the users
    map of at most one room. *)
Theorem at_most_one_membership (evs : list Event) (sid r1 r2 : string) :
  let σ := (sys_run initial_system evs).1 in
  is_member (sys_server σ) r1 sid = true →
  is_member (sys_server σ) r2 sid = true →
  r1 = r2.
Proof.
  intros σ H1 H2. destruct (reachable_inv evs) as [Hinv _]. fold σ in Hinv.
  apply (inv_member σ Hinv) in H1 as (c1 & Hc1 & Hcur1).
  apply (inv_member σ Hinv) in H2 as (c2 & Hc2 & Hcur2).
  congruence.
Qed.

Lemma at_most_one_membership_witness :
  let join room :=
    EvJoinRoom "s1" {| jd_roomId := Some room; jd_username := None |}
      "CleverSketcher8" 0%Z in
  let evs := [EvConnection "s1"; join "attic"; join "cellar";
              join "attic"] in
  is_member (sys_server (sys_run initial_system evs).1) "attic" "s1" = true ∧
  is_member (sys_server (sys_run initial_system evs).1) "cellar" "s1"
    = false.
Proof.
  intros join evs. split; [reflexivity|].
  destruct (is_member (sys_server (sys_run initial_system evs).1)
              "cellar" "s1") eqn:E; [|reflexivity].
  discriminate (at_most_one_membership evs "s1" "cellar" "attic" E eq_refl).
Defined.

Lemma cleanup_getRoom (m : RoomManager.t) r room :
  NoDup (RoomManager.rooms m).*1 →
  RoomManager.getRoom m r = Some room →
  JsMap.size (DrawingState.users room) ≠ 0 →
  RoomManager.getRoom (RoomManager.cleanupEmptyRooms m).1 r = Some room.
Proof.
  intros Hnd Hget Hnz. unfold RoomManager.getRoom in *.
  rewrite (cleanup_rooms m Hnd).
  etrans; [by apply JsMap_get_filter|].
  rewrite Hget. simpl. by rewrite decide_True.
Qed.

(** X12: a room somebody is bound to is never reclaimed: in every state the
    server reaches, if a connection is bound to a room, the room is in the
    store, and neither a deferred removeRoom (for any room id) nor the
    periodic sweep changes or removes it. *)
Theorem occupied_room_survives (evs : list Event) (sid r rid : string) :
  let σ := (sys_run initial_system evs).1 in
  bound_to σ sid r →
  is_Some (RoomManager.getRoom (roomManager (sys_server σ)) r) ∧
  RoomManager.getRoom
    (roomManager (sys_server (sys_step σ (EvRemoveRoomTimer rid)).1)) r
  = RoomManager.getRoom (roomManager (sys_server σ)) r ∧
  RoomManager.getRoom
    (roomManager (sys_server (sys_step σ EvCleanupInterval).1)) r
  = RoomManager.getRoom (roomManager (sys_server σ)) r.
Proof.
  intros σ Hb. destruct (reachable_inv evs) as [Hinv _]. fold σ in Hinv.
  destruct (bound_room σ sid r Hinv Hb)
    as (c & room & Hc & Hid & Hcur & Htr & Hget & Hhas).
  pose proof (JsMap_has_nonempty _ _ Hhas) as Hnz.
  split_and!.
  - rewrite Hget. by eexists.
  - cbn [sys_step sys_server fst roomManager].
    unfold RoomManager.removeRoom.
    destruct (JsMap.get rid
                (RoomManager.rooms (roomManager (sys_server σ))))
      as [room0|] eqn:Hrid; [|done].
    destruct (decide _) as [Hz|]; [|done].
    unfold RoomManager.getRoom in *. simpl.
    destruct (decide (rid = r)) as [->|Hne]; [congruence|].
    by apply JsMap_get_delete_ne.
  - cbn [sys_step sys_server fst roomManager].
    rewrite Hget. apply cleanup_getRoom; [apply (inv_keys σ Hinv)|done..].
Qed.

Lemma occupied_room_survives_witness :
  let evs := [EvConnection "s1"; EvConnection "s2";
              EvJoinRoom "s1" {| jd_roomId := Some "studio";
                                 jd_username := None |} "ZenArtist1" 0%Z;
              EvJoinRoom "s2" {| jd_roomId := Some "studio";
                                 jd_username := None |} "ZenArtist2" 1%Z;
              EvDraw "s1" (JObj []) 2%Z;
              EvDisconnect "s1"] in
  let σ := (sys_run initial_system evs).1 in
  is_Some (RoomManager.getRoom
             (roomManager
                (sys_server (sys_step σ (EvRemoveRoomTimer "studio")).1))
             "studio").
Proof.
  intros evs σ.
  assert (bound_to σ "s2" "studio") as Hb.
  { eexists. split; reflexivity. }
  destruct (occupied_room_survives evs "s2" "studio" "studio" Hb)
    as (Hsome & Heq & _).
  fold σ in Heq. rewrite Heq. exact Hsome.
Defined.

End ReachableExtras.

(** ** What the handlers do for a connection that has joined *)

Section BoundHandlerExtras.
Implicit Types (srv : Server) (c : Conn) (rid sid : string) (σ : System).

(** X13: a draw from a connection that has joined is never dropped.  In
    every state the server reaches, for a connection bound to a room, the
    room exists and the handler appends one operation to its log: of type
    "draw", with the payload as sent, the socket id and the name of the
    sender, the room's id counter as id and the current time; it emits that
    operation once, to the others in the room; no other room, no closure and
    no color is touched. *)
Theorem draw_by_bound_connection
    (evs : list Event) (sid cur : string) (data : JsVal) (now : Z) :
  let σ := (sys_run initial_system evs).1 in
  let σ' := (sys_step σ (EvDraw sid data now)).1 in
  bound_to σ sid cur →
  ∃ room c info,
    RoomManager.getRoom (roomManager (sys_server σ)) cur = Some room ∧
    sys_conns σ !! sid = Some c ∧ userInfo c = Some info ∧
    let op := {| op_type := "draw"; op_data := data; op_userId := sid;
                 op_username := Some (ui_username info);
                 op_id := DrawingState.currentOperationId room;
                 op_timestamp := now |} in
    (sys_step σ (EvDraw sid data now)).2
      = [Emit (ToOthers cur sid) (DrawMsg op)] ∧
    (∀ r, RoomManager.getRoom (roomManager (sys_server σ')) r
          = if decide (cur = r)
            then Some {| DrawingState.roomId := DrawingState.roomId room;
                         DrawingState.operations :=
                           DrawingState.operations room ++ [op];
                         DrawingState.currentOperationId :=
                           S (DrawingState.currentOperationId room);
                         DrawingState.users := DrawingState.users room |}
            else RoomManager.getRoom (roomManager (sys_server σ)) r) ∧
    sys_conns σ' = sys_conns σ ∧
    colorIndex (sys_server σ') = colorIndex (sys_server σ).
Proof.
  intros σ σ' Hb. destruct (reachable_inv evs) as [Hinv Hext].
  fold σ in Hinv, Hext.
  destruct (bound_room σ sid cur Hinv Hb)
    as (c & room & Hc & Hid & Hcur & Htr & Hget & Hhas).
  pose proof (ext_conns σ Hext _ _ Hc) as Hok.
  unfold conn_ok in Hok. rewrite Hcur in Hok.
  destruct Hok as (info & Hinfo & Hiid).
  exists room, c, info. split_and!; [done..|].
  unfold σ'. cbn [sys_step]. unfold deliver. rewrite Hc.
  unfold on_draw. rewrite Htr, Hget. simpl. rewrite Hinfo, Hid. simpl.
  split_and!; [done| |by apply insert_id|done].
  intros r. apply getRoom_mutated.
Qed.

Lemma draw_by_bound_connection_witness :
  let evs := [EvConnection "s1";
              EvJoinRoom "s1" {| jd_roomId := Some "studio";
                                 jd_username := Some "Ann" |} "unused" 0%Z;
              EvDraw "s1" (JObj []) 1%Z] in
  let σ := (sys_run initial_system evs).1 in
  ∃ op, (sys_step σ (EvDraw "s1" (JStr "stroke") 2%Z)).2
          = [Emit (ToOthers "studio" "s1") (DrawMsg op)] ∧
        op_id op = 1 ∧ op_username op = Some "Ann".
Proof.
  intros evs σ.
  assert (bound_to σ "s1" "studio") as Hb.
  { eexists. split; reflexivity. }
  destruct (draw_by_bound_connection evs "s1" "studio" (JStr "stroke") 2%Z
              Hb) as (room & c & info & Hroom & Hc & Hinfo & Heff & _).
  vm_compute in Hroom. injection Hroom as <-.
  vm_compute in Hc. injection Hc as <-.
  vm_compute in Hinfo. injection Hinfo as <-.
  eexists. split; [exact Heff|]. split; reflexivity.
Defined.

(** X14: an undo from a connection that has joined.  In every state the
    server reaches, for a connection bound to a room: if the room's log is
    empty nothing changes and nothing is emitted; otherwise the last
    operation leaves the log and one undo message carrying its id goes to
    the whole room, the sender included; no other room is touched. *)
Theorem undo_by_bound_connection (evs : list Event) (sid cur : string) :
  let σ := (sys_run initial_system evs).1 in
  let σ' := (sys_step σ (EvUndo sid)).1 in
  bound_to σ sid cur →
  ∃ room,
    RoomManager.getRoom (roomManager (sys_server σ)) cur = Some room ∧
    match DrawingState.operations room with
    | [] => sys_step σ (EvUndo sid) = (σ, [])
    | _ :: _ =>
        ∃ op rest,
          DrawingState.operations room = rest ++ [op] ∧
          (sys_step σ (EvUndo sid)).2
            = [Emit (ToAll cur) (UndoMsg (op_id op))] ∧
          (∀ r, RoomManager.getRoom (roomManager (sys_server σ')) r
                = if decide (cur = r)
                  then Some {| DrawingState.roomId :=
                                 DrawingState.roomId room;
                               DrawingState.operations := rest;
                               DrawingState.currentOperationId :=
                                 DrawingState.currentOperationId room;
                               DrawingState.users :=
                                 DrawingState.users room |}
                  else RoomManager.getRoom (roomManager (sys_server σ)) r) ∧
          sys_conns σ' = sys_conns σ
    end.
Proof.
  intros σ σ' Hb. destruct (reachable_inv evs) as [Hinv Hext].
  fold σ in Hinv, Hext.
  destruct (bound_room σ sid cur Hinv Hb)
    as (c & room & Hc & Hid & Hcur & Htr & Hget & Hhas).
  exists room. split; [done|].
  destruct (decide (DrawingState.operations room = [])) as [Hnil|Hne].
  - rewrite Hnil. cbn [sys_step]. unfold deliver. rewrite Hc.
    unfold on_undo. rewrite Htr, Hget, (undo_empty room Hnil).
    rewrite insert_id by done. by destruct σ.
  - destruct (exists_last Hne) as (rest & op & Hl).
    assert (∃ o' l', DrawingState.operations room = o' :: l')
      as (o' & l' & Heq).
    { rewrite Hl. destruct rest; simpl; eauto. }
    rewrite Heq. exists op, rest. split; [by rewrite <- Heq|].
    unfold σ'. cbn [sys_step]. unfold deliver. rewrite Hc.
    unfold on_undo. rewrite Htr, Hget, (undo_snoc room _ _ Hl). simpl.
    split_and!; [done| |by apply insert_id].
    intros r. apply getRoom_mutated.
Qed.

Lemma undo_by_bound_connection_witness :
  let evs := [EvConnection "s1";
              EvJoinRoom "s1" {| jd_roomId := Some "studio";
                                 jd_username := Some "Ann" |} "unused" 0%Z;
              EvDraw "s1" (JObj []) 1%Z; EvDraw "s1" (JObj []) 2%Z] in
  let σ := (sys_run initial_system evs).1 in
  (sys_step σ (EvUndo "s1")).2 = [Emit (ToAll "studio") (UndoMsg 1)].
Proof.
  intros evs σ.
  assert (bound_to σ "s1" "studio") as Hb.
  { eexists. split; reflexivity. }
  destruct (undo_by_bound_connection evs "s1" "studio" Hb)
    as (room & Hroom & Hcase).
  vm_compute in Hroom. injection Hroom as <-. simpl in Hcase.
  destruct Hcase as (op & rest & Hl & Heff & _).
  apply (app_inj_tail [_]) in Hl as [_ <-]. exact Heff.
Defined.

(** X15: a clear from a connection that has joined.  In every state the
    server reaches, for a connection bound to a room, the room's log is
    emptied and its id counter reset, its users stay, one clear-canvas
    message goes to the whole room, and no other room is touched. *)
Theorem clear_by_bound_connection (evs : list Event) (sid cur : string) :
  let σ := (sys_run initial_system evs).1 in
  let σ' := (sys_step σ (EvClearCanvas sid)).1 in
  bound_to σ sid cur →
  ∃ room,
    RoomManager.getRoom (roomManager (sys_server σ)) cur = Some room ∧
    (sys_step σ (EvClearCanvas sid)).2 = [Emit (ToAll cur) ClearCanvas] ∧
    (∀ r, RoomManager.getRoom (roomManager (sys_server σ')) r
          = if decide (cur = r)
            then Some {| DrawingState.roomId := DrawingState.roomId room;
                         DrawingState.operations := [];
                         DrawingState.currentOperationId := 0;
                         DrawingState.users := DrawingState.users room |}
            else RoomManager.getRoom (roomManager (sys_server σ)) r) ∧
    sys_conns σ' = sys_conns σ.
Proof.
  intros σ σ' Hb. destruct (reachable_inv evs) as [Hinv Hext].
  fold σ in Hinv, Hext.
  destruct (bound_room σ sid cur Hinv Hb)
    as (c & room & Hc & Hid & Hcur & Htr & Hget & Hhas).
  exists room. split; [done|].
  unfold σ'. cbn [sys_step]. unfold deliver. rewrite Hc.
  unfold on_clear_canvas. rewrite Htr, Hget. simpl.
  split_and!; [done| |by apply insert_id].
  intros r. apply getRoom_mutated.
Qed.

Lemma clear_by_bound_connection_witness :
  let evs := [EvConnection "s1";
              EvJoinRoom "s1" {| jd_roomId := Some "studio";
                                 jd_username := Some "Ann" |} "unused" 0%Z;
              EvDraw "s1" (JObj []) 1%Z] in
  let σ := (sys_run initial_system evs).1 in
  (sys_step σ (EvClearCanvas "s1")).2 = [Emit (ToAll "studio") ClearCanvas].
Proof.
  intros evs σ.
  assert (bound_to σ "s1" "studio") as Hb.
  { eexists. split; reflexivity. }
  destruct (clear_by_bound_connection evs "s1" "studio" Hb)
    as (room & _ & Heff & _).
  exact Heff.
Defined.

End BoundHandlerExtras.

(** ** Joining and leaving *)

Section JoinLeaveExtras.
Implicit Types (srv : Server) (c : Conn) (rid sid : string) (σ : System).

Lemma join_leave_ops srv c r :
  DrawingState.operations
    <$> RoomManager.getRoom (roomManager (join_leave srv c).1) r
  = DrawingState.operations <$> RoomManager.getRoom (roomManager srv) r.
Proof.
  unfold join_leave.
  destruct (truthy (currentRoom c)) as [cur|]; [|done].
  destruct (RoomManager.getRoom (roomManager srv) cur) as [old|] eqn:Hget;
    [|done].
  simpl. rewrite getRoom_mutated.
  destruct (decide (cur = r)) as [<-|]; [|done]. by rewrite Hget.
Qed.

Lemma join_create_getRoom srv rid r :
  RoomManager.getRoom (roomManager (join_create srv rid).1) r
  = if decide (rid = r) then Some (join_create srv rid).2
    else RoomManager.getRoom (roomManager srv) r.
Proof.
  unfold join_create, RoomManager.getOrCreateRoom, RoomManager.getRoom.
  destruct (JsMap.get rid (RoomManager.rooms (roomManager srv)))
    as [room|] eqn:Hget; simpl.
  - destruct (decide (rid = r)) as [<-|]; done.
  - destruct (decide (rid = r)) as [<-|Hne].
    + apply JsMap_get_set_eq.
    + by apply JsMap_get_set_ne.
Qed.

Lemma join_create_log srv rid :
  DrawingState.operations (join_create srv rid).2
  = default [] (DrawingState.operations
                  <$> RoomManager.getRoom (roomManager srv) rid).
Proof.
  unfold join_create, RoomManager.getOrCreateRoom, RoomManager.getRoom.
  by destruct (JsMap.get rid (RoomManager.rooms (roomManager srv))).
Qed.

Lemma on_join_result
    (srv : Server) (c : Conn) (data : JoinData) (gen : string) (now : Z)
    (r : string) :
  let B := join_target data in
  let sid := socket_id c in
  let info := {| ui_userId := sid;
                 ui_username := js_or (jd_username data) gen;
                 ui_color := next_color srv |} in
  let log := default [] (DrawingState.operations
                           <$> RoomManager.getRoom (roomManager srv) B) in
  let res := on_join srv c data gen now in
  ∃ room',
    RoomManager.getRoom (roomManager res.1.1) B = Some room' ∧
    DrawingState.operations room' = log ∧
    DrawingState.getUser room' sid
      = Some {| u_userId := sid; u_username := ui_username info;
                u_color := ui_color info; u_joinedAt := now |} ∧
    res.2 = (join_leave srv c).2 ++
            [SockJoin sid B;
             Emit (ToSelf sid)
               (InitState sid info log (DrawingState.getUsers room'));
             Emit (ToOthers B sid) (UserJoined info);
             Emit (ToAll B) (UsersUpdate (DrawingState.getUsers room'))] ∧
    res.1.2 = {| socket_id := sid; currentRoom := Some B;
                 userInfo := Some info |} ∧
    DrawingState.operations
      <$> RoomManager.getRoom (roomManager res.1.1) r
    = if decide (B = r) then Some log
      else DrawingState.operations
             <$> RoomManager.getRoom (roomManager srv) r.
Proof.
  intros B sid info log res.
  pose proof (join_leave_colors srv c) as [_ Hci1].
  pose proof (join_create_colorIndex (join_leave srv c).1 B) as Hci2.
  pose proof (join_create_log (join_leave srv c).1 B) as Hlog.
  rewrite join_leave_ops in Hlog. fold log in Hlog.
  pose proof (λ r, join_create_getRoom (join_leave srv c).1 B r) as Hget2.
  pose proof (join_leave_ops srv c r) as Hops1.
  unfold res, on_join. fold B sid.
  destruct (join_leave srv c) as [srv1 leaving]. simpl in *.
  destruct (join_create srv1 B) as [srv2 room]. simpl in *.
  assert (next_color srv2 = next_color srv) as Hcol.
  { unfold next_color. by rewrite Hci2, Hci1. }
  unfold join_add. simpl. rewrite Hcol. fold info.
  eexists. split_and!.
  - rewrite getRoom_mutated. by rewrite decide_True.
  - done.
  - unfold DrawingState.getUser. simpl. apply JsMap_get_set_eq.
  - by rewrite Hlog.
  - done.
  - rewrite getRoom_mutated. destruct (decide (B = r)) as [<-|Hne].
    + simpl. by rewrite Hlog.
    + rewrite Hget2, decide_False by done. exact Hops1.
Qed.

(** X16: a join replays the room's log and changes no log.  Whatever the
    state, the handler sends, after what the leave of the previous room
    emitted and in this order: init-state to the joiner, with the log the
    joined room had before (empty for a room it creates) and the room's
    users list, in which the joiner now is; user-joined to the others of the
    room; users-update with that list to the whole room.  The joiner gets
    the requested name, or the generated one when none (or an empty one) was
    requested, and the next color of the palette; every room's log is what
    it was. *)
Theorem join_replays_log
    (srv : Server) (c : Conn) (data : JoinData) (gen : string) (now : Z)
    (r : string) :
  let B := join_target data in
  let sid := socket_id c in
  let info := {| ui_userId := sid;
                 ui_username := js_or (jd_username data) gen;
                 ui_color := next_color srv |} in
  let log := default [] (DrawingState.operations
                           <$> RoomManager.getRoom (roomManager srv) B) in
  let res := on_join srv c data gen now in
  ∃ room',
    RoomManager.getRoom (roomManager res.1.1) B = Some room' ∧
    DrawingState.operations room' = log ∧
    DrawingState.getUser room' sid
      = Some {| u_userId := sid; u_username := ui_username info;
                u_color := ui_color info; u_joinedAt := now |} ∧
    res.2 = (join_leave srv c).2 ++
            [SockJoin sid B;
             Emit (ToSelf sid)
               (InitState sid info log (DrawingState.getUsers room'));
             Emit (ToOthers B sid) (UserJoined info);
             Emit (ToAll B) (UsersUpdate (DrawingState.getUsers room'))] ∧
    res.1.2 = {| socket_id := sid; currentRoom := Some B;
                 userInfo := Some info |} ∧
    DrawingState.operations
      <$> RoomManager.getRoom (roomManager res.1.1) r
    = if decide (B = r) then Some log
      else DrawingState.operations
             <$> RoomManager.getRoom (roomManager srv) r.
Proof. apply on_join_result. Qed.

Lemma JsMap_nonempty_key {V} (m : JsMap.t V) :
  JsMap.size m ≠ 0 → ∃ k, JsMap.has k m = true.
Proof.
  destruct m as [|[k v] m]; [done|]. intros _. exists k.
  unfold JsMap.has. simpl. by rewrite decide_True.
Qed.

Lemma removeRoom_getRoom_self (m : RoomManager.t) rid room :
  RoomManager.getRoom m rid = Some room →
  RoomManager.getRoom (RoomManager.removeRoom m rid).1 rid = None
  ↔ JsMap.size (DrawingState.users room) = 0.
Proof.
  unfold RoomManager.removeRoom, RoomManager.getRoom. intros Hget.
  rewrite Hget. destruct (decide _) as [Hz|Hnz]; simpl.
  - by rewrite JsMap_get_delete_eq.
  - by rewrite Hget.
Qed.

(** X17: leaving.  In every state the server reaches, when a connection
    bound to a room disconnects, the handler removes it from the room's
    users, tells the others it left, sends the remaining users list to the
    room and defers a removeRoom by 5000 ms; the room with its log stays in
    the store meanwhile.  When the deferred removeRoom runs next, the room
    is deleted exactly if nobody else was bound to it. *)
Theorem disconnect_then_reclaim (evs : list Event) (sid cur : string) :
  let σ := (sys_run initial_system evs).1 in
  let σ1 := (sys_step σ (EvDisconnect sid)).1 in
  let σ2 := (sys_step σ1 (EvRemoveRoomTimer cur)).1 in
  bound_to σ sid cur →
  ∃ room,
    RoomManager.getRoom (roomManager (sys_server σ)) cur = Some room ∧
    (sys_step σ (EvDisconnect sid)).2
      = [Emit (ToOthers cur sid) (UserLeft sid);
         Emit (ToAll cur)
           (UsersUpdate
              (DrawingState.getUsers (DrawingState.removeUser room sid)));
         SetTimeoutRemoveRoom 5000 cur] ∧
    sys_conns σ1 !! sid = None ∧
    RoomManager.getRoom (roomManager (sys_server σ1)) cur
      = Some (DrawingState.removeUser room sid) ∧
    (RoomManager.getRoom (roomManager (sys_server σ2)) cur = None ↔
     ∀ sid', bound_to σ sid' cur → sid' = sid).
Proof.
  intros σ σ1 σ2 Hb. destruct (reachable_inv evs) as [Hinv _].
  fold σ in Hinv.
  destruct (bound_room σ sid cur Hinv Hb)
    as (c & room & Hc & Hid & Hcur & Htr & Hget & Hhas).
  exists room. split; [done|].
  assert (sys_step σ (EvDisconnect sid)
          = ({| sys_server :=
                  {| roomManager :=
                       RoomManager.mutated (roomManager (sys_server σ)) cur
                         (DrawingState.removeUser room sid);
                     colorIndex := colorIndex (sys_server σ) |};
                sys_conns := delete sid (sys_conns σ) |},
             [Emit (ToOthers cur sid) (UserLeft sid);
              Emit (ToAll cur)
                (UsersUpdate
                   (DrawingState.getUsers
                      (DrawingState.removeUser room sid)));
              SetTimeoutRemoveRoom 5000 cur])) as Hstep.
  { cbn [sys_step]. rewrite Hc. unfold on_disconnect.
    rewrite Htr, Hget, Hid. done. }
  assert (RoomManager.getRoom (roomManager (sys_server σ1)) cur
          = Some (DrawingState.removeUser room sid)) as Hget1.
  { unfold σ1. rewrite Hstep. simpl. rewrite getRoom_mutated.
    by rewrite decide_True. }
  split_and!.
  - by rewrite Hstep.
  - unfold σ1. rewrite Hstep. simpl. apply lookup_delete_eq.
  - done.
  - assert (JsMap.size
              (DrawingState.users (DrawingState.removeUser room sid)) = 0
            ↔ ∀ sid', bound_to σ sid' cur → sid' = sid) as Hempty.
    { split.
      - intros Hz sid' Hb'. destruct (decide (sid' = sid)) as [|Hne]; [done|].
        exfalso. pose proof (inv_bound σ Hinv _ _ Hb') as Hm.
        rewrite (is_member_room _ _ _ _ Hget) in Hm.
        assert (JsMap.has sid'
                  (DrawingState.users (DrawingState.removeUser room sid))
                = true) as Hm'.
        { simpl. rewrite has_delete. by rewrite decide_False. }
        by apply JsMap_has_nonempty in Hm'.
      - intros Honly.
        destruct (decide (JsMap.size
                            (DrawingState.users
                               (DrawingState.removeUser room sid)) = 0))
          as [|Hnz]; [done|].
        exfalso. apply JsMap_nonempty_key in Hnz as [k Hk].
        simpl in Hk. rewrite has_delete in Hk.
        destruct (decide (sid = k)) as [|Hne]; [done|].
        rewrite <- (is_member_room _ _ _ _ Hget) in Hk.
        apply (inv_member σ Hinv) in Hk. apply Honly in Hk. congruence. }
    rewrite <- Hempty. clearbody σ1. unfold σ2.
    cbn [sys_step sys_server fst roomManager].
    by apply removeRoom_getRoom_self.
Qed.

Lemma disconnect_then_reclaim_witness :
  let evs := [EvConnection "s1";
              EvJoinRoom "s1" {| jd_roomId := Some "studio";
                                 jd_username := Some "Ann" |} "unused" 0%Z;
              EvDraw "s1" (JObj []) 1%Z] in
  let σ := (sys_run initial_system evs).1 in
  let σ1 := (sys_step σ (EvDisconnect "s1")).1 in
  let σ2 := (sys_step σ1 (EvRemoveRoomTimer "studio")).1 in
  is_Some (RoomManager.getRoom (roomManager (sys_server σ1)) "studio") ∧
  RoomManager.getRoom (roomManager (sys_server σ2)) "studio" = None.
Proof.
  intros evs σ σ1 σ2.
  assert (bound_to σ "s1" "studio") as Hb.
  { eexists. split; reflexivity. }
  destruct (disconnect_then_reclaim evs "s1" "studio" Hb)
    as (room & _ & _ & _ & Hget1 & _).
  split; [|reflexivity].
  fold σ σ1 in Hget1. rewrite Hget1. by eexists.
Defined.

End JoinLeaveExtras.

(** ** The client *)

Section ClientExtras.
Implicit Types (cl : Client) (w : WebSocketManager.t) (cm : CanvasManager.t).

Lemma pointers_app cl (es1 es2 : list Pointer) :
  pointers cl (es1 ++ es2)
  = ((pointers (pointers cl es1).1 es2).1,
     (pointers cl es1).2 ++ (pointers (pointers cl es1).1 es2).2).
Proof.
  revert cl. induction es1 as [|e es1 IH]; intros cl; simpl.
  - by destruct (pointers cl es2).
  - destruct (pointer cl e) as [cl1 out1]. rewrite IH.
    destruct (pointers cl1 es1) as [cl2 out2]. simpl.
    destruct (pointers cl2 es2) as [cl3 out3]. simpl.
    by rewrite app_assoc.
Qed.

Lemma sendCursorPosition_frame w x y now :
  WebSocketManager.connected (WebSocketManager.sendCursorPosition w x y now).1
    = WebSocketManager.connected w ∧
  strokes_sent (WebSocketManager.sendCursorPosition w x y now).2 = [].
Proof.
  unfold WebSocketManager.sendCursorPosition.
  destruct (WebSocketManager.connected w) eqn:Hc; simpl; [|done].
  by destruct (_ <? _)%Z.
Qed.

(** Moves while a stroke is under way: the path grows by the positions, in
    order, and no stroke is sent. *)
Lemma pointers_moves cl (moves : list (JsVal * Z)) :
  CanvasManager.isDrawing (canvasManager cl) = true →
  let r := pointers cl ((λ m, PointerMove m.1 m.2) <$> moves) in
  strokes_sent r.2 = [] ∧
  CanvasManager.isDrawing (canvasManager r.1) = true ∧
  CanvasManager.currentPath (canvasManager r.1)
    = CanvasManager.currentPath (canvasManager cl) ++ moves.*1 ∧
  CanvasManager.currentTool (canvasManager r.1)
    = CanvasManager.currentTool (canvasManager cl) ∧
  CanvasManager.currentColor (canvasManager r.1)
    = CanvasManager.currentColor (canvasManager cl) ∧
  CanvasManager.strokeWidth (canvasManager r.1)
    = CanvasManager.strokeWidth (canvasManager cl) ∧
  CanvasManager.operations (canvasManager r.1)
    = CanvasManager.operations (canvasManager cl) ∧
  WebSocketManager.connected (wsManager r.1)
    = WebSocketManager.connected (wsManager cl).
Proof.
  revert cl. induction moves as [|[p t] moves IH]; intros cl Hd.
  { simpl. rewrite app_nil_r. by split_and!. }
  cbn [fmap list_fmap pointers pointer fst snd].
  unfold handleDrawMove.
  destruct (sendCursorPosition_frame (wsManager cl) (js_field "x" p)
              (js_field "y" p) t) as [Hconn Hnone].
  destruct (WebSocketManager.sendCursorPosition (wsManager cl)
              (js_field "x" p) (js_field "y" p) t) as [w' out1].
  simpl in Hconn, Hnone.
  set (cl1 := {| canvasManager :=
                   CanvasManager.extendPath (canvasManager cl) p;
                 wsManager := w' |}).
  assert (CanvasManager.isDrawing (canvasManager cl1) = true) as Hd1.
  { simpl. unfold CanvasManager.extendPath. by rewrite Hd. }
  specialize (IH cl1 Hd1). simpl in IH.
  destruct (pointers cl1 ((λ m, PointerMove m.1 m.2) <$> moves))
    as [cl2 out2].
  simpl in *. destruct IH as (H1 & H2 & H3 & H4 & H5 & H6 & H7 & H8).
  unfold strokes_sent in *. rewrite omap_app, Hnone, H1.
  unfold CanvasManager.extendPath in H3, H4, H5, H6, H7.
  rewrite Hd in H3, H4, H5, H6, H7. simpl in *.
  split_and!; try done.
  - by rewrite H3, <- app_assoc.
  - congruence.
Qed.

(** X18: a stroke.  A press at p0, moves through p1, ..., pn and a release
    send, when the client is connected, exactly one draw message, whose
    path is p0, p1, ..., pn in this order and whose color, width and tool
    are the current ones; a client that is not connected sends no stroke.
    Afterwards no stroke is under way and the path is empty; the client's
    own operations list is as before: its own stroke is not recorded in
    it. *)
Theorem stroke_sends_traced_path cl (p0 : JsVal) (moves : list (JsVal * Z)) :
  let es := PointerDown p0 ::
            ((λ m, PointerMove m.1 m.2) <$> moves) ++ [PointerUp] in
  let cm := canvasManager cl in
  strokes_sent (pointers cl es).2
  = (if WebSocketManager.connected (wsManager cl)
     then [JObj [("path", JArr (p0 :: moves.*1));
                 ("color", JStr (CanvasManager.currentColor cm));
                 ("width", JNum (CanvasManager.strokeWidth cm));
                 ("tool", JStr (CanvasManager.currentTool cm))]]
     else []) ∧
  canvasManager (pointers cl es).1
  = {| CanvasManager.isDrawing := false;
       CanvasManager.currentTool := CanvasManager.currentTool cm;
       CanvasManager.currentColor := CanvasManager.currentColor cm;
       CanvasManager.strokeWidth := CanvasManager.strokeWidth cm;
       CanvasManager.currentPath := [];
       CanvasManager.lastPoint := None;
       CanvasManager.operations := CanvasManager.operations cm |}.
Proof.
  intros es cm. unfold es. cbn [pointers pointer].
  set (cl0 := {| canvasManager :=
                   CanvasManager.handleDrawStart (canvasManager cl) p0;
                 wsManager := wsManager cl |}).
  rewrite pointers_app.
  destruct (pointers_moves cl0 moves eq_refl)
    as (H1 & H2 & H3 & H4 & H5 & H6 & H7 & H8).
  destruct (pointers cl0 ((λ m, PointerMove m.1 m.2) <$> moves))
    as [cl1 out1]. simpl in *.
  unfold handleDrawEnd. rewrite H2. simpl.
  unfold strokes_sent in *. rewrite omap_app, H1, app_nil_r. simpl.
  rewrite H3, H4, H5, H6, H7. split; [|done].
  rewrite decide_True by (simpl; lia).
  unfold WebSocketManager.sendDrawing, CanvasManager.drawData.
  rewrite H8, H3, H4, H5, H6. fold cm.
  by destruct (WebSocketManager.connected (wsManager cl)).
Qed.

(** X19: without a press, no stroke.  While no stroke is under way, moves
    and releases (the pointer passing over the canvas, leaving it, a stray
    touchend) send no stroke and leave the canvas manager as it is. *)
Theorem no_press_no_stroke cl (es : list Pointer) :
  CanvasManager.isDrawing (canvasManager cl) = false →
  Forall (λ e, ∀ pos, e ≠ PointerDown pos) es →
  strokes_sent (pointers cl es).2 = [] ∧
  canvasManager (pointers cl es).1 = canvasManager cl.
Proof.
  revert cl. induction es as [|e es IH]; intros cl Hd Hes; [done|].
  apply Forall_cons in Hes as [He Hes]. cbn [pointers].
  assert (strokes_sent (pointer cl e).2 = [] ∧
          canvasManager (pointer cl e).1 = canvasManager cl) as [Hs Hc].
  { destruct e as [pos|pos now|]; simpl.
    - by destruct (He pos).
    - unfold handleDrawMove.
      destruct (sendCursorPosition_frame (wsManager cl) (js_field "x" pos)
                  (js_field "y" pos) now) as [_ Hnone].
      destruct (WebSocketManager.sendCursorPosition _ _ _ _) as [w' out].
      simpl in *. split; [done|].
      unfold CanvasManager.extendPath. by rewrite Hd.
    - unfold handleDrawEnd. by rewrite Hd. }
  destruct (pointer cl e) as [cl1 out1]. simpl in Hs, Hc.
  assert (CanvasManager.isDrawing (canvasManager cl1) = false) as Hd1
    by by rewrite Hc.
  destruct (IH cl1 Hd1 Hes) as [Hs' Hc'].
  destruct (pointers cl1 es) as [cl2 out2]. simpl in *.
  unfold strokes_sent in *. rewrite omap_app, Hs, Hs'. split; [done|].
  congruence.
Qed.

Lemma no_press_no_stroke_witness :
  let cl := {| canvasManager := CanvasManager.new;
               wsManager := (WebSocketManager.on_connect
                               WebSocketManager.new).1 |} in
  let es := [PointerMove (JObj [("x", JNum 1); ("y", JNum 2)]) 1000%Z;
             PointerUp;
             PointerMove (JObj [("x", JNum 3); ("y", JNum 4)]) 2000%Z] in
  strokes_sent (pointers cl es).2 = [] ∧
  length (pointers cl es).2 = 2.
Proof.
  intros cl es. split; [|reflexivity].
  refine (proj1 (no_press_no_stroke cl es eq_refl _)).
  repeat constructor; discriminate.
Defined.

Lemma cursor_send_times_spec w (calls : list (JsVal * JsVal * Z)) :
  Sorted (λ t1 t2, (t1 + 50 ≤ t2)%Z) (cursor_send_times w calls) ∧
  Forall (λ t, (WebSocketManager.lastCursorUpdate w + 50 ≤ t)%Z)
    (cursor_send_times w calls) ∧
  (WebSocketManager.connected w = false → cursor_send_times w calls = []).
Proof.
  revert w. induction calls as [|[[x y] now] calls IH]; intros w.
  { simpl. by split_and!; [constructor|constructor|]. }
  cbn [cursor_send_times].
  unfold WebSocketManager.sendCursorPosition,
    WebSocketManager.cursorUpdateInterval.
  destruct (WebSocketManager.connected w) eqn:Hconn; simpl.
  - destruct (now - WebSocketManager.lastCursorUpdate w <? 50)%Z eqn:Hlt.
    + destruct (IH w) as (Hs & Hf & _). by split_and!.
    + apply Z.ltb_ge in Hlt.
      destruct (IH {| WebSocketManager.userId := WebSocketManager.userId w;
                      WebSocketManager.userInfo :=
                        WebSocketManager.userInfo w;
                      WebSocketManager.connected := true;
                      WebSocketManager.lastCursorUpdate := now |})
        as (Hs & Hf & _).
      simpl in Hf. split_and!; [|constructor|done].
      * constructor; [done|].
        destruct (cursor_send_times _ calls) as [|t ts]; constructor.
        by apply Forall_cons in Hf as [? _].
      * lia.
      * eapply Forall_impl; [exact Hf|]. simpl. lia.
  - destruct (IH w) as (Hs & Hf & Hoff).
    split_and!; [done|done|intros _; by apply Hoff].
Qed.

(** X20: the cursor throttle.  Whatever the calls of sendCursorPosition and
    their times, two cursor messages sent one after the other are at least
    50 ms apart, the first one at least 50 ms after the last one sent
    before; a client that is not connected sends none. *)
Theorem cursor_messages_spaced w (calls : list (JsVal * JsVal * Z)) :
  Sorted (λ t1 t2, (t1 + 50 ≤ t2)%Z) (cursor_send_times w calls) ∧
  Forall (λ t, (WebSocketManager.lastCursorUpdate w + 50 ≤ t)%Z)
    (cursor_send_times w calls) ∧
  (if WebSocketManager.connected w then True
   else cursor_send_times w calls = []).
Proof.
  destruct (cursor_send_times_spec w calls) as (Hs & Hf & Hoff).
  split_and!; [done..|].
  destruct (WebSocketManager.connected w); [done|]. by apply Hoff.
Qed.

End ClientExtras.

(** ** The client's operations list and the room's log *)

Section MirrorExtras.
Implicit Types (srv : Server) (c : Conn) (cl : Client) (sid : string).

Lemma removeLastOperation_snoc (cm : CanvasManager.t) rest op :
  CanvasManager.operations cm = rest ++ [op] →
  CanvasManager.operations (CanvasManager.removeLastOperation cm) = rest.
Proof.
  intros H. unfold CanvasManager.removeLastOperation.
  rewrite decide_True by (rewrite H, length_app; simpl; lia).
  simpl. by rewrite H, array_pop_snoc.
Qed.

Lemma removeLastOperation_empty (cm : CanvasManager.t) :
  CanvasManager.operations cm = [] →
  CanvasManager.removeLastOperation cm = cm.
Proof.
  intros H. unfold CanvasManager.removeLastOperation.
  by rewrite decide_False by (rewrite H; simpl; lia).
Qed.

(** X21: listeners follow the log.  Take a connection bound to a room that
    exists and a client in that room whose operations list equals the
    room's log.  After an undo or a clear from the connection, the client,
    sender or not, applies what it gets and again holds the room's log.
    After a draw, every client but the sender gets the new operation and
    holds the room's log; the sender gets nothing and its list stays as it
    was, one operation short of the log. *)
Theorem listeners_follow_the_log
    (srv : Server) (c : Conn) (cl : Client) (sid' cur : string)
    (room : DrawingState.t) (data : JsVal) (now : Z) :
  truthy (currentRoom c) = Some cur →
  RoomManager.getRoom (roomManager srv) cur = Some room →
  CanvasManager.operations (canvasManager cl)
    = DrawingState.operations room →
  let log_after (res : Server * Conn * list Effect) :=
    DrawingState.operations
      <$> RoomManager.getRoom (roomManager res.1.1) cur in
  let list_after (res : Server * Conn * list Effect) :=
    CanvasManager.operations (canvasManager (hears cl cur sid' res.2)) in
  Some (list_after (on_undo srv c)) = log_after (on_undo srv c) ∧
  Some (list_after (on_clear_canvas srv c))
    = log_after (on_clear_canvas srv c) ∧
  (∃ op, log_after (on_draw srv c data now)
         = Some (DrawingState.operations room ++ [op]) ∧
         list_after (on_draw srv c data now)
         = if decide (sid' = socket_id c) then DrawingState.operations room
           else DrawingState.operations room ++ [op]).
Proof.
  intros Htr Hget Hsync log_after list_after.
  unfold log_after, list_after, hears. split_and!.
  - unfold on_undo. rewrite Htr, Hget.
    destruct (decide (DrawingState.operations room = [])) as [Hnil|Hne].
    + rewrite (undo_empty room Hnil). simpl. by rewrite Hget, Hsync.
    + destruct (exists_last Hne) as (rest & op & Hl).
      rewrite (undo_snoc room _ _ Hl). simpl.
      rewrite getRoom_mutated, !decide_True by done. simpl.
      rewrite Hl in Hsync. by rewrite (removeLastOperation_snoc _ _ _ Hsync).
  - unfold on_clear_canvas. rewrite Htr, Hget. simpl.
    rewrite getRoom_mutated, !decide_True by done. done.
  - unfold on_draw. rewrite Htr, Hget. simpl.
    eexists. rewrite getRoom_mutated, decide_True by done. simpl.
    split; [done|].
    destruct (decide (sid' = socket_id c)) as [->|Hne].
    + rewrite decide_False by (by intros [_ ?]). simpl. done.
    + rewrite decide_True by done. simpl. by rewrite Hsync.
Qed.

Lemma listeners_follow_the_log_witness :
  let room := (DrawingState.addOperation (DrawingState.new "studio")
                 sample_op 1%Z).1 in
  let srv := {| roomManager :=
                  {| RoomManager.rooms := [("studio", room)] |};
                colorIndex := 1 |} in
  let c := {| socket_id := "s1"; currentRoom := Some "studio";
              userInfo := Some {| ui_userId := "s1"; ui_username := "Ann";
                                  ui_color := "#FF6B6B" |} |} in
  let cl := {| canvasManager :=
                 CanvasManager.loadOperations CanvasManager.new
                   (DrawingState.operations room);
               wsManager := WebSocketManager.new |} in
  Some (CanvasManager.operations
          (canvasManager (hears cl "studio" "s2" (on_undo srv c).2)))
  = Some [].
Proof.
  intros room srv c cl.
  destruct (listeners_follow_the_log srv c cl "s2" "studio" room JNull 0%Z
              eq_refl eq_refl eq_refl) as (Hundo & _ & _).
  etrans; [exact Hundo | reflexivity].
Defined.

Lemma join_leave_unheard srv c room :
  omap (heard_by room (socket_id c)) (join_leave srv c).2 = [].
Proof.
  unfold join_leave.
  destruct (truthy (currentRoom c)) as [cur|]; [|done].
  destruct (RoomManager.getRoom (roomManager srv) cur); [|done].
  simpl. by rewrite decide_False by (by intros [_ ?]).
Qed.

(** X22: a joiner starts from the room's log.  Whatever the state of the
    server and of the client, after a join the client of the joining
    connection, applying what it gets, holds exactly the log of the room it
    joined, and knows its socket id and the userInfo the server gave it. *)
Theorem joiner_receives_the_log
    (srv : Server) (c : Conn) (data : JoinData) (gen : string) (now : Z)
    (cl : Client) :
  let B := join_target data in
  let res := on_join srv c data gen now in
  let cl' := hears cl B (socket_id c) res.2 in
  Some (CanvasManager.operations (canvasManager cl'))
  = DrawingState.operations
      <$> RoomManager.getRoom (roomManager res.1.1) B ∧
  WebSocketManager.userId (wsManager cl') = Some (socket_id c) ∧
  WebSocketManager.userInfo (wsManager cl') = userInfo res.1.2.
Proof.
  intros B res cl'.
  destruct (on_join_result srv c data gen now B)
    as (room' & Hget & Hlog & _ & Heffs & Hconn & _).
  fold B res in Hget, Heffs, Hconn.
  unfold cl', hears. rewrite Heffs, omap_app, join_leave_unheard.
  rewrite Hget, Hconn. simpl.
  rewrite (decide_True (P := socket_id c = socket_id c)) by done.
  rewrite (decide_False (P := B = B ∧ socket_id c ≠ socket_id c))
    by (by intros [_ ?]).
  rewrite (decide_True (P := B = B)) by done. simpl.
  by rewrite Hlog.
Qed.

End MirrorExtras.

(** ** Who can change a log *)

Section LogOwnershipExtras.
Implicit Types (srv : Server) (c : Conn) (rid sid : string) (σ : System).

Lemma log_changed_in_own_room srv c (data : JsVal) (now : Z) r room room'
    (res : Server * Conn * list Effect) :
  res = on_draw srv c data now ∨ res = on_undo srv c ∨
  res = on_clear_canvas srv c →
  RoomManager.getRoom (roomManager srv) r = Some room →
  RoomManager.getRoom (roomManager res.1.1) r = Some room' →
  DrawingState.operations room' ≠ DrawingState.operations room →
  truthy (currentRoom c) = Some r.
Proof.
  intros Hres Hget Hget' Hne.
  assert (∀ cur room0,
            RoomManager.getRoom
              (RoomManager.mutated (roomManager srv) cur room0) r
            = Some room' → cur = r) as Hmut.
  { intros cur room0. rewrite getRoom_mutated.
    destruct (decide (cur = r)); [done|]. rewrite Hget.
    intros [= <-]. done. }
  destruct Hres as [-> | [-> | ->]].
  - unfold on_draw in *.
    destruct (truthy (currentRoom c)) as [cur|]; [|simpl in *; congruence].
    destruct (RoomManager.getRoom (roomManager srv) cur);
      [|simpl in *; congruence].
    simpl in Hget'. f_equal. by eapply Hmut.
  - unfold on_undo in *.
    destruct (truthy (currentRoom c)) as [cur|]; [|simpl in *; congruence].
    destruct (RoomManager.getRoom (roomManager srv) cur) as [room0|];
      [|simpl in *; congruence].
    destruct (DrawingState.undo room0) as [room1 [op|]];
      [|simpl in *; congruence].
    simpl in Hget'. f_equal. by eapply Hmut.
  - unfold on_clear_canvas in *.
    destruct (truthy (currentRoom c)) as [cur|]; [|simpl in *; congruence].
    destruct (RoomManager.getRoom (roomManager srv) cur);
      [|simpl in *; congruence].
    simpl in Hget'. f_equal. by eapply Hmut.
Qed.

Lemma on_disconnect_ops srv c r :
  DrawingState.operations
    <$> RoomManager.getRoom (roomManager (on_disconnect srv c).1.1) r
  = DrawingState.operations <$> RoomManager.getRoom (roomManager srv) r.
Proof.
  unfold on_disconnect.
  destruct (truthy (currentRoom c)) as [cur|]; [|done].
  destruct (RoomManager.getRoom (roomManager srv) cur) as [old|] eqn:Hget;
    [|done].
  simpl. rewrite getRoom_mutated.
  destruct (decide (cur = r)) as [<-|]; [|done]. by rewrite Hget.
Qed.

(** X23: a room's log changes from the inside only.  In every state the
    server reaches, if an event changes the log of a room that stays in the
    store, the event is a draw, an undo or a clear-canvas from a connection
    bound to that room; joins and leaves, cursor moves, the handlers of
    connections bound elsewhere or nowhere, the deferred removeRoom and the
    sweep change no log. *)
Theorem log_changes_from_inside_only
    (evs : list Event) (ev : Event) (r : string)
    (room room' : DrawingState.t) :
  let σ := (sys_run initial_system evs).1 in
  let σ' := (sys_step σ ev).1 in
  RoomManager.getRoom (roomManager (sys_server σ)) r = Some room →
  RoomManager.getRoom (roomManager (sys_server σ')) r = Some room' →
  DrawingState.operations room' ≠ DrawingState.operations room →
  ∃ sid, bound_to σ sid r ∧
         (ev = EvUndo sid ∨ ev = EvClearCanvas sid ∨
          ∃ data now, ev = EvDraw sid data now).
Proof.
  intros σ σ' Hget Hget' Hne.
  destruct (reachable_inv evs) as [Hinv _]. fold σ in Hinv.
  assert (∀ sid (res : Conn → Server * Conn * list Effect),
            (∀ c, sys_conns σ !! sid = Some c →
                  sys_server σ' = (res c).1.1) →
            (sys_conns σ !! sid = None → sys_server σ' = sys_server σ) →
            (∀ c, ∃ data now,
                    res c = on_draw (sys_server σ) c data now ∨
                    res c = on_undo (sys_server σ) c ∨
                    res c = on_clear_canvas (sys_server σ) c) →
            bound_to σ sid r) as Hown.
  { intros sid res Hsome Hnone Hres.
    destruct (sys_conns σ !! sid) as [c|] eqn:Hc.
    - destruct (Hres c) as (data & now & Hcase).
      rewrite (Hsome c eq_refl) in Hget'.
      pose proof (log_changed_in_own_room _ c data now r room room' (res c)
                    Hcase Hget Hget' Hne) as Htr.
      exists c. split; [done|].
      destruct (inv_conn σ Hinv _ _ Hc) as [_ Heq]. congruence.
    - rewrite (Hnone eq_refl), Hget in Hget'. congruence. }
  assert (DrawingState.operations
            <$> RoomManager.getRoom (roomManager (sys_server σ')) r
          ≠ DrawingState.operations
              <$> RoomManager.getRoom (roomManager (sys_server σ)) r)
    as Hdiff.
  { rewrite Hget, Hget'. simpl. congruence. }
  unfold σ' in *. clear σ'.
  destruct ev; cbn [sys_step] in *.
  - (* connection *)
    exfalso. apply Hdiff.
    by destruct (sys_conns σ !! sid).
  - (* join-room *)
    exfalso. apply Hdiff. unfold deliver.
    destruct (sys_conns σ !! sid) as [c|]; [|done].
    destruct (on_join_result (sys_server σ) c data gen now r)
      as (_ & _ & _ & _ & _ & _ & Hops).
    destruct (on_join (sys_server σ) c data gen now) as [[srv' c'] effs].
    simpl in *. rewrite Hops.
    destruct (decide (join_target data = r)) as [->|]; [|done].
    by rewrite Hget.
  - (* draw *)
    exists sid. split; [|by eauto].
    apply (Hown sid (λ c, on_draw (sys_server σ) c data now)).
    + intros c Hc. unfold deliver. rewrite Hc.
      by destruct (on_draw (sys_server σ) c data now) as [[? ?] ?].
    + intros Hc. unfold deliver. by rewrite Hc.
    + intros c. exists data, now. by left.
  - (* cursor-move *)
    exfalso. apply Hdiff. unfold deliver.
    destruct (sys_conns σ !! sid) as [c|]; [|done].
    unfold on_cursor_move. by destruct (truthy (currentRoom c)).
  - (* undo *)
    exists sid. split; [|by eauto].
    apply (Hown sid (λ c, on_undo (sys_server σ) c)).
    + intros c Hc. unfold deliver. rewrite Hc.
      by destruct (on_undo (sys_server σ) c) as [[? ?] ?].
    + intros Hc. unfold deliver. by rewrite Hc.
    + intros c. exists JNull, 0%Z. right. by left.
  - (* clear-canvas *)
    exists sid. split; [|by eauto].
    apply (Hown sid (λ c, on_clear_canvas (sys_server σ) c)).
    + intros c Hc. unfold deliver. rewrite Hc.
      by destruct (on_clear_canvas (sys_server σ) c) as [[? ?] ?].
    + intros Hc. unfold deliver. by rewrite Hc.
    + intros c. exists JNull, 0%Z. right. by right.
  - (* disconnect *)
    exfalso. apply Hdiff.
    destruct (sys_conns σ !! sid) as [c|]; [|done].
    pose proof (on_disconnect_ops (sys_server σ) c r) as Hops.
    by destruct (on_disconnect (sys_server σ) c) as [[srv' c'] effs].
  - (* deferred removeRoom *)
    exfalso. apply Hne. cbn [sys_server fst roomManager] in Hget'.
    unfold RoomManager.removeRoom in Hget'.
    destruct (JsMap.get rid
                (RoomManager.rooms (roomManager (sys_server σ))));
      [|simpl in *; congruence].
    destruct (decide _); [|simpl in *; congruence].
    unfold RoomManager.getRoom in *. simpl in Hget'.
    destruct (decide (rid = r)) as [->|Hn].
    + by rewrite JsMap_get_delete_eq in Hget'.
    + rewrite JsMap_get_delete_ne in Hget' by done. congruence.
  - (* periodic cleanup *)
    exfalso. apply Hne. cbn [sys_server fst roomManager] in Hget'.
    unfold RoomManager.getRoom, RoomManager.cleanupEmptyRooms in *.
    simpl in Hget'. apply get_foldl_delete in Hget'. congruence.
Qed.

Lemma log_changes_from_inside_only_witness :
  let evs := [EvConnection "s1"; EvConnection "s2";
              EvJoinRoom "s1" {| jd_roomId := Some "studio";
                                 jd_username := Some "Ann" |} "unused" 0%Z;
              EvDraw "s1" (JObj []) 1%Z] in
  ∃ sid, bound_to (sys_run initial_system evs).1 sid "studio" ∧
         (EvUndo "s1" = EvUndo sid ∨ EvUndo "s1" = EvClearCanvas sid ∨
          ∃ data now, EvUndo "s1" = EvDraw sid data now).
Proof.
  intros evs.
  refine (log_changes_from_inside_only evs (EvUndo "s1") "studio" _ _
            eq_refl eq_refl _).
  vm_compute. discriminate.
Defined.

End LogOwnershipExtras.

(** ** Cursor moves *)

Section CursorExtras.
Implicit Types (srv : Server) (c : Conn) (rid sid : string) (σ : System).



End CursorExtras.
